(** * Measure validation of the score reader: a shallow embedding

    This development embeds [tools/measure_validator.py] (duration parsing,
    per-voice duration sums, per-measure validation against the governing
    time signature, whole-score validation with time-signature carry-forward)
    and proves the properties its specification states about it.

    Conventions of the embedding:
    - A Python [Fraction] is a rational in lowest terms: a [Q] that is always
      produced through [Qred] (see [Fraction], [frac_add], [frac_mul],
      [frac_sub]), so that equal fractions are equal terms.
    - A Python [str] is a [string] whose characters are code points below 256;
      [strip], [lower], [split] and [int] follow CPython on those code points.
    - A Python exception is the [Raise] outcome of [result]; a function that
      may raise returns a [result].
    - A Python [float] is a [pyfloat]: a double given by the rational it is
      worth, or one of negative zero, the infinities and NaN. [float(x)] of a
      fraction, the sum and the quotient of floats round to the nearest
      double, ties to even (see [round_double], [py_float], [float_add],
      [float_div_count]).
    - The builtins are those of CPython 3.11: [int()] and [str()] of an
      integer refuse more than 4300 digits, and [sum()] adds floats one by
      one. *)

From Stdlib Require Import ZArith QArith Qabs Qreduction List String Ascii Bool Lia.
From Stdlib Require Import DecimalString DecimalPos DecimalZ Lqa.
Import ListNotations.

Local Open Scope string_scope.
Local Open Scope Z_scope.

(** ** Exceptions and results *)

Inductive exn : Type :=
| ValueError
| ZeroDivisionError
| TypeError
| OverflowError.

Inductive result (A : Type) : Type :=
| Ok (a : A)
| Raise (e : exn).

Arguments Ok {A} a.
Arguments Raise {A} e.

Definition bind {A B : Type} (r : result A) (k : A -> result B) : result B :=
  match r with
  | Ok a => k a
  | Raise e => Raise e
  end.

Notation "x <- r ;; k" := (bind r (fun x => k))
  (at level 61, r at next level, right associativity).

(** ** Python strings *)

Module PyStr.

(** [str.isspace] on a code point below 256 (what [strip()] and [split()]
    without argument remove). *)
Definition is_space (c : ascii) : bool :=
  let n := nat_of_ascii c in
  ((9 <=? n) && (n <=? 13) || (28 <=? n) && (n <=? 32)
   || (n =? 133) || (n =? 160))%nat.

(** The white space that [int()] skips around a literal: the C-locale white
    space, and the two non-ASCII spaces below 256 (which [int] first rewrites
    to a blank). *)
Definition is_int_space (c : ascii) : bool :=
  let n := nat_of_ascii c in
  ((9 <=? n) && (n <=? 13) || (n =? 32) || (n =? 133) || (n =? 160))%nat.

(** [str.lower] on one code point below 256. *)
Definition lower_char (c : ascii) : ascii :=
  let n := nat_of_ascii c in
  if ((65 <=? n) && (n <=? 90)
      || (192 <=? n) && (n <=? 222) && negb (n =? 215))%nat
  then ascii_of_nat (n + 32)
  else c.

Fixpoint lower (s : string) : string :=
  match s with
  | EmptyString => EmptyString
  | String c t => String (lower_char c) (lower t)
  end.

Definition is_empty (s : string) : bool :=
  match s with
  | EmptyString => true
  | String _ _ => false
  end.

Fixpoint lstrip_by (sp : ascii -> bool) (s : string) : string :=
  match s with
  | EmptyString => EmptyString
  | String c t => if sp c then lstrip_by sp t else s
  end.

Fixpoint rstrip_by (sp : ascii -> bool) (s : string) : string :=
  match s with
  | EmptyString => EmptyString
  | String c t =>
      let t' := rstrip_by sp t in
      if sp c && is_empty t' then EmptyString else String c t'
  end.

(** [s.strip()] *)
Definition strip (s : string) : string := rstrip_by is_space (lstrip_by is_space s).

(** [c in s] for a one-character [c] *)
Fixpoint contains (c : ascii) (s : string) : bool :=
  match s with
  | EmptyString => false
  | String a t => Ascii.eqb a c || contains c t
  end.

(** [s.split(sep)] for a one-character separator: never empty, keeps empty
    fields. *)
Fixpoint split (sep : ascii) (s : string) : list string :=
  match s with
  | EmptyString => [EmptyString]
  | String c t =>
      if Ascii.eqb c sep then EmptyString :: split sep t
      else match split sep t with
           | h :: r => String c h :: r
           | [] => [String c EmptyString]
           end
  end.

(** [s.split()] : the maximal runs of characters that are not white space. *)
Fixpoint split_ws (s : string) : list string :=
  match s with
  | EmptyString => []
  | String c t =>
      if is_space c then split_ws t
      else match t with
           | EmptyString => [String c EmptyString]
           | String c' _ =>
               if is_space c' then String c EmptyString :: split_ws t
               else match split_ws t with
                    | h :: r => String c h :: r
                    | [] => [String c EmptyString]
                    end
           end
  end.

(** *** [int(s)] in base 10 *)

Definition digit_value (c : ascii) : option Z :=
  let n := nat_of_ascii c in
  if ((48 <=? n) && (n <=? 57))%nat then Some (Z.of_nat (n - 48)) else None.

Definition underscore : ascii := "_"%char.

(** The digits of a literal body, most significant first: one underscore is
    allowed between two digits, nowhere else. [prev_digit] tells whether the
    previous character was a digit. *)
Fixpoint scan_digits (prev_digit : bool) (s : string) : option (list Z) :=
  match s with
  | EmptyString => if prev_digit then Some [] else None
  | String c t =>
      match digit_value c with
      | Some d =>
          match scan_digits true t with
          | Some ds => Some (d :: ds)
          | None => None
          end
      | None =>
          if Ascii.eqb c underscore && prev_digit
          then match t with
               | EmptyString => None
               | String c' _ =>
                   match digit_value c' with
                   | Some _ => scan_digits false t
                   | None => None
                   end
               end
          else None
      end
  end.

(** [sys.get_int_max_str_digits()], the default limit on the length of a
    decimal literal. *)
Definition max_str_digits : nat := 4300.

Definition digits_value (ds : list Z) : Z :=
  fold_left (fun acc d => 10 * acc + d) ds 0.

Definition int_body (s : string) : result Z :=
  match scan_digits false s with
  | Some ds =>
      if (max_str_digits <? List.length ds)%nat then Raise ValueError
      else Ok (digits_value ds)
  | None => Raise ValueError
  end.

Definition py_int (s : string) : result Z :=
  let s := rstrip_by is_int_space (lstrip_by is_int_space s) in
  match s with
  | String "+"%char t => int_body t
  | String "-"%char t => v <- int_body t ;; Ok (- v)
  | _ => int_body s
  end.

(** The decimal numeral of an integer, with its sign. *)
Definition str_of_int (n : Z) : string := NilZero.string_of_int (Z.to_int n).

(** The number of digits of the numeral, without the sign. *)
Definition decimal_digits (n : Z) : nat := String.length (str_of_int (Z.abs n)).

(** [str(n)] of an integer, also as an f-string renders it: [ValueError]
    beyond the limit on the number of digits. *)
Definition py_str (n : Z) : result string :=
  if (max_str_digits <? decimal_digits n)%nat then Raise ValueError
  else Ok (str_of_int n).

End PyStr.

(** ** Fractions *)

(** [Fraction(n, d)]: lowest terms, positive denominator;
    [ZeroDivisionError] for a zero denominator. *)
Definition Fraction (n d : Z) : result Q :=
  match d with
  | Z0 => Raise ZeroDivisionError
  | Zpos p => Ok (Qred (n # p))
  | Zneg p => Ok (Qred ((- n) # p))
  end.

Definition frac_add (a b : Q) : Q := Qred (a + b).
Definition frac_sub (a b : Q) : Q := Qred (a - b).
Definition frac_mul (a b : Q) : Q := Qred (a * b).
Definition frac_abs (a : Q) : Q := Qabs a.
Definition frac_of_int (n : Z) : Q := n # 1.

(** ** Floats *)

Inductive pyfloat : Type :=
| Finite (q : Q)
| NegZero
| PosInf
| NegInf
| NaN.

(** The integer part of the binary logarithm of [a / b]. *)
Definition floor_log2_ratio (a b : positive) : Z :=
  let l := Z.log2 (Z.pos a) - Z.log2 (Z.pos b) in
  if Z.pos b * 2 ^ Z.max l 0 <=? Z.pos a * 2 ^ Z.max (- l) 0 then l else l - 1.

(** The integer nearest to [num / den], ties to even. *)
Definition round_half_even (num den : Z) : Z :=
  let q := num / den in
  match 2 * (num mod den) ?= den with
  | Lt => q
  | Gt => q + 1
  | Eq => if Z.even q then q else q + 1
  end.

(** The double nearest to [a / b], as mantissa and exponent: 53 bits of
    mantissa, exponents from -1074 (subnormal numbers) upwards. *)
Definition round_positive (a b : positive) : Z * Z :=
  let e := Z.max (floor_log2_ratio a b - 52) (-1074) in
  (round_half_even (Z.pos a * 2 ^ Z.max (- e) 0) (Z.pos b * 2 ^ Z.max e 0), e).

(** [m * 2 ^ e] *)
Definition scaled (m e : Z) : Q :=
  if 0 <=? e then (m * 2 ^ e) # 1 else Qred (m # Z.to_pos (2 ^ (- e))).

Definition overflows (m e : Z) : bool := (0 <=? e) && (2 ^ 1024 <=? m * 2 ^ e).

(** The double nearest to a rational, ties to even: an infinity beyond the
    largest double, a zero with the sign of the rational below the smallest. *)
Definition round_double (x : Q) : pyfloat :=
  let x := Qred x in
  match Qnum x with
  | Z0 => Finite (0 # 1)
  | Z.pos a =>
      let (m, e) := round_positive a (Qden x) in
      if overflows m e then PosInf else Finite (scaled m e)
  | Z.neg a =>
      let (m, e) := round_positive a (Qden x) in
      if overflows m e then NegInf
      else if m =? 0 then NegZero else Finite (- scaled m e)
  end.

Definition is_zero (q : Q) : bool := Qnum q =? 0.

(** [a + b] on floats *)
Definition float_add (a b : pyfloat) : pyfloat :=
  match a, b with
  | NaN, _ | _, NaN => NaN
  | PosInf, NegInf | NegInf, PosInf => NaN
  | PosInf, _ | _, PosInf => PosInf
  | NegInf, _ | _, NegInf => NegInf
  | NegZero, NegZero => NegZero
  | NegZero, Finite y => Finite y
  | Finite x, NegZero => Finite x
  | Finite x, Finite y =>
      if is_zero (x + y) then Finite (0 # 1) else round_double (x + y)
  end.

(** [a / count] for a float and the length of a non-empty list (a length is
    below 2^63, so that [float(count)] is finite). *)
Definition float_div_count (a : pyfloat) (count : nat) : pyfloat :=
  match round_double (Z.of_nat count # 1) with
  | Finite c =>
      match a with
      | Finite x => if is_zero x then Finite (0 # 1) else round_double (x / c)
      | other => other
      end
  | _ => NaN
  end.

(** [float(x)] of a fraction, which is [numerator / denominator] on
    integers: [OverflowError] when the nearest double would be infinite,
    that is from [float_overflow_bound] on, else the nearest double. *)
Definition float_overflow_bound : Q := ((2 ^ 1024 - 2 ^ 970) # 1)%Q.

Definition py_float (x : Q) : result pyfloat :=
  if Qle_bool float_overflow_bound (Qabs x) then Raise OverflowError
  else Ok (round_double x).

(** ** The duration table *)

Definition DURATION_VALUES : list (string * Q) :=
  [ ("whole", 4 # 1);
    ("half", 2 # 1);
    ("quarter", 1 # 1);
    ("eighth", 1 # 2);
    ("sixteenth", 1 # 4);
    ("thirty_second", 1 # 8);
    ("rest", 0 # 1);
    ("dotted whole", 6 # 1);
    ("dotted half", 3 # 1);
    ("dotted quarter", 3 # 2);
    ("dotted eighth", 3 # 4);
    ("dotted sixteenth", 3 # 8);
    ("eigths", 1 # 2);
    ("eigth", 1 # 2) ]%Q.

(** [d.get(key, default)] on a dict given by its items *)
Fixpoint dict_get {V : Type} (d : list (string * V)) (key : string) (default : V) : V :=
  match d with
  | [] => default
  | (k, v) :: r => if String.eqb k key then v else dict_get r key default
  end.

(** [d.get(key)] *)
Fixpoint dict_find {V : Type} (d : list (string * V)) (key : string) : option V :=
  match d with
  | [] => None
  | (k, v) :: r => if String.eqb k key then Some v else dict_find r key
  end.

Definition number_words : list (string * Z) :=
  [ ("one", 1); ("two", 2); ("three", 3); ("four", 4); ("five", 5);
    ("six", 6); ("seven", 7); ("eight", 8); ("nine", 9); ("ten", 10) ].

(** ** Duration expressions *)

(** A value found where a duration is expected. The parser looks at such a
    value only through [isinstance(_, list)], [isinstance(_, str)], its truth
    value and its [str()]: a value that is neither a list, a string nor [None]
    is given by the last two. *)
#[warning="-register-all"]
Inductive pyval : Type :=
| VNone
| VStr (s : string)
| VList (l : list pyval)
| VOther (truthy : bool) (repr : string).

(** [not v] is false *)
Definition truthy (v : pyval) : bool :=
  match v with
  | VNone => false
  | VStr s => negb (PyStr.is_empty s)
  | VList l => match l with [] => false | _ :: _ => true end
  | VOther b _ => b
  end.

(** The text on which the parser works once the value is known not to be a
    list: the string itself, or [str(v)]. *)
Definition text_of (v : pyval) : string :=
  match v with
  | VNone => "None"
  | VStr s => s
  | VList _ => EmptyString
  | VOther _ r => r
  end.

(** [sum(...)] of a generator of fractions, left to right, the first
    exception ending it. *)
Fixpoint sum_results (total : Q) (rs : list (result Q)) : result Q :=
  match rs with
  | [] => Ok total
  | r :: rest => d <- r ;; sum_results (frac_add total d) rest
  end.

Module Parser.

Import PyStr.

Definition comma : ascii := ","%char.
Definition star : ascii := "*"%char.

(** Lines 70-75: the form [<int> * <token>]. *)
Definition parse_product (duration_str : string) : result Q :=
  let parts := split star duration_str in
  multiplier <- py_int (strip (nth 0 parts EmptyString)) ;;
  let duration_type := strip (nth 1 parts EmptyString) in
  Ok (frac_mul (frac_of_int multiplier) (dict_get DURATION_VALUES duration_type (0 # 1)%Q)).

(** Lines 88-92: the misspellings the spelled-out form accepts. *)
Definition normalize_unit (duration_type : string) : string :=
  if String.eqb duration_type "eigths" || String.eqb duration_type "eigth" then "eighth"
  else if String.eqb duration_type "sixteenths" then "sixteenth"
  else duration_type.

(** Lines 77-97: the spelled-out count, else the plain table lookup. *)
Definition parse_words (duration_str : string) : result Q :=
  let words := split_ws duration_str in
  match words with
  | w0 :: w1 :: _ =>
      match dict_find number_words w0 with
      | Some multiplier =>
          let duration_type := normalize_unit (lower w1) in
          let base_duration := dict_get DURATION_VALUES duration_type (0 # 1)%Q in
          Ok (frac_mul (frac_of_int multiplier) base_duration)
      | None => Ok (dict_get DURATION_VALUES duration_str (0 # 1)%Q)
      end
  | _ => Ok (dict_get DURATION_VALUES duration_str (0 # 1)%Q)
  end.

(** Lines 52-97 of [parse_duration] for an argument that is not a list,
    with [self] standing for the recursive call of line 68. [nonempty] is the
    truth value of the argument and [text] its string. *)
Definition parse_body (self : string -> result Q) (nonempty : bool) (text : string)
  : result Q :=
  if negb nonempty then Ok (0 # 1)%Q
  else
    let duration_str := lower (strip text) in
    if is_empty duration_str then Ok (0 # 1)%Q
    else if contains comma duration_str then
      let parts := split comma duration_str in
      sum_results (0 # 1)%Q (map (fun part => self (strip part)) parts)
    else if contains star duration_str then parse_product duration_str
    else parse_words duration_str.

(** The parser on a string argument. The call of line 68 is made on a part
    of a comma-split string, which holds no comma and so never recurses
    again: two unfoldings of the body reach every call, and
    [parse_text_unfold] shows that the result satisfies the recursive
    equation of the source. *)
Definition parse_text_leaf (s : string) : result Q :=
  parse_body (fun _ => Ok (0 # 1)%Q) (negb (is_empty s)) s.

Definition parse_text (s : string) : result Q :=
  parse_body parse_text_leaf (negb (is_empty s)) s.

End Parser.

(** [parse_duration(duration_input)] *)
Fixpoint parse_duration (duration_input : pyval) : result Q :=
  match duration_input with
  | VList l =>
      (* duration_input[-1], or 0 for the empty list *)
      (fix last_of (l : list pyval) : result Q :=
         match l with
         | [] => Ok (0 # 1)%Q
         | [x] => parse_duration x
         | _ :: t => last_of t
         end) l
  | v => Parser.parse_body Parser.parse_text (truthy v) (text_of v)
  end.

(** ** Events, measures and scores *)

(** An event [{"notes": [...], "duration": ...}]; [ev_duration] is [None]
    when the key is missing. *)
Record event : Type := mkEvent {
  ev_notes : list string;
  ev_duration : option pyval
}.

(** [event.get("duration", "quarter")] *)
Definition duration_input_of (e : event) : pyval :=
  match ev_duration e with
  | Some v => v
  | None => VStr "quarter"
  end.

(** A value found where a time signature is expected: [None] (or a missing
    key of a measure), a string, a dict with integer [numerator] and
    [denominator], or a value of another type, given by its truth value. *)
Inductive ts_value : Type :=
| TSNone
| TSStr (s : string)
| TSDict (numerator denominator : Z)
| TSOther (truthy : bool).

Definition ts_truthy (t : ts_value) : bool :=
  match t with
  | TSNone => false
  | TSStr s => negb (PyStr.is_empty s)
  | TSDict _ _ => true
  | TSOther b => b
  end.

Definition default_ts : ts_value := TSDict 4 4.

(** [time_signature or {"numerator": 4, "denominator": 4}] *)
Definition ts_or_default (t : ts_value) : ts_value :=
  if ts_truthy t then t else default_ts.

(** [(t["numerator"], t["denominator"])]; only a dict can be subscripted by
    a string. *)
Definition ts_fields (t : ts_value) : result (Z * Z) :=
  match t with
  | TSDict n d => Ok (n, d)
  | _ => Raise TypeError
  end.

Definition slash : ascii := "/"%char.

(** A measure; [m_id] is [None] when the key is missing, and
    [m_time_signature] is [TSNone] when the key is missing or null. *)
Record measure : Type := mkMeasure {
  m_id : option pyval;
  m_time_signature : ts_value;
  m_right_hand : list event;
  m_left_hand : list event
}.

(** A score; [s_time_signature] is [None] when the key is missing. *)
Record score : Type := mkScore {
  s_time_signature : option ts_value;
  s_measures : list measure
}.

(** ** Durations of a voice *)

(** The loop of lines 126-133, on the events that remain. *)
Fixpoint add_durations (total : Q) (events : list event) : result Q :=
  match events with
  | [] => Ok total
  | e :: rest =>
      duration <- parse_duration (duration_input_of e) ;;
      add_durations (frac_add total duration) rest
  end.

Definition calculate_measure_duration_events
  (events : list event) (time_signature : ts_value) (is_left_hand : bool) : result Q :=
  match events with
  | [] => Ok (0 # 1)%Q
  | _ :: _ => add_durations (0 # 1)%Q events
  end.

(** ** Validation of one measure *)

Record validation_result : Type := mkResult {
  measure_id : pyval;
  time_signature : string;
  expected_duration : pyfloat;
  right_hand_duration : pyfloat;
  left_hand_duration : pyfloat;
  right_hand_valid : bool;
  left_hand_valid : bool;
  both_valid : bool;
  right_hand_error : pyfloat;
  left_hand_error : pyfloat
}.

(** The text "N/D" of a signature. *)
Definition ts_text (n d : Z) : string :=
  PyStr.str_of_int n ++ "/" ++ PyStr.str_of_int d.

(** [f"{n}/{d}"]: [ValueError] when [n] or [d] has too many digits for
    [str]. *)
Definition render_ts (n d : Z) : result string :=
  sn <- PyStr.py_str n ;;
  sd <- PyStr.py_str d ;;
  Ok (sn ++ "/" ++ sd).

(** Lines 149-167: the signature [validate_measure] works with. *)
Definition effective_time_signature (measure_ts time_signature : ts_value)
  : result ts_value :=
  match measure_ts with
  | TSNone =>
      match time_signature with
      | TSNone => Ok default_ts
      | _ => Ok time_signature
      end
  | TSStr s =>
      let parts := PyStr.split slash s in
      if (List.length parts =? 2)%nat then
        n <- PyStr.py_int (nth 0 parts EmptyString) ;;
        d <- PyStr.py_int (nth 1 parts EmptyString) ;;
        Ok (TSDict n d)
      else Ok (ts_or_default time_signature)
  | TSDict _ _ => Ok measure_ts
  | TSOther _ => Ok (ts_or_default time_signature)
  end.

Definition tolerance : Q := (1 # 1000)%Q.

Definition validate_measure (m : measure) (time_signature : ts_value)
  : result validation_result :=
  ts <- effective_time_signature (m_time_signature m) time_signature ;;
  nd <- ts_fields ts ;;
  let (n, d) := nd in
  f <- Fraction n d ;;
  let expected := frac_mul f (4 # 1)%Q in
  rh <- calculate_measure_duration_events (m_right_hand m) ts false ;;
  lh <- calculate_measure_duration_events (m_left_hand m) ts true ;;
  let mid := match m_id m with Some v => v | None => VStr "?" end in
  let right_valid := Qle_bool (frac_abs (frac_sub rh expected)) tolerance in
  let left_valid := Qle_bool (frac_abs (frac_sub lh expected)) tolerance in
  right_error <- py_float (frac_abs (frac_sub rh expected)) ;;
  left_error <- py_float (frac_abs (frac_sub lh expected)) ;;
  ts_str <- render_ts n d ;;
  expected_f <- py_float expected ;;
  rh_f <- py_float rh ;;
  lh_f <- py_float lh ;;
  Ok {| measure_id := mid;
        time_signature := ts_str;
        expected_duration := expected_f;
        right_hand_duration := rh_f;
        left_hand_duration := lh_f;
        right_hand_valid := right_valid;
        left_hand_valid := left_valid;
        both_valid := right_valid && left_valid;
        right_hand_error := right_error;
        left_hand_error := left_error |}.

(** ** Validation of a score *)

Record summary : Type := mkSummary {
  right_hand_valid_count : nat;
  left_hand_valid_count : nat;
  average_right_hand_error : pyfloat;
  average_left_hand_error : pyfloat
}.

Record aggregate : Type := mkAggregate {
  agg_time_signature : string;
  total_measures : nat;
  valid_measures : nat;
  invalid_measures : nat;
  all_valid : bool;
  measure_results : list validation_result;
  agg_summary : summary
}.

(** What [validate_all_measures] returns: [{"status": "error",
    "error_message": ...}] or the report with ["status": "success"]. *)
Inductive report : Type :=
| ErrorReport (error_message : string)
| SuccessReport (a : aggregate).

(** Lines 226-235: the global signature. *)
Definition global_time_signature (s : score) : result ts_value :=
  match s_time_signature s with
  | None => Ok default_ts
  | Some (TSStr str) =>
      let parts := PyStr.split slash str in
      if (List.length parts =? 2)%nat then
        n <- PyStr.py_int (nth 0 parts EmptyString) ;;
        d <- PyStr.py_int (nth 1 parts EmptyString) ;;
        Ok (TSDict n d)
      else Ok default_ts
  | Some v => Ok v
  end.

(** Lines 255-263: the running signature after looking at a measure. *)
Definition update_current (current measure_ts : ts_value) : result ts_value :=
  match measure_ts with
  | TSStr s =>
      let parts := PyStr.split slash s in
      if (List.length parts =? 2)%nat then
        n <- PyStr.py_int (nth 0 parts EmptyString) ;;
        d <- PyStr.py_int (nth 1 parts EmptyString) ;;
        Ok (TSDict n d)
      else Ok current
  | TSDict _ _ => Ok measure_ts
  | _ => Ok current
  end.

(** The loop of lines 253-268 on the measures that remain, with its three
    variables. *)
Fixpoint validate_loop (current : ts_value) (results : list validation_result)
  (all_ok : bool) (measures : list measure)
  : result (list validation_result * bool) :=
  match measures with
  | [] => Ok (results, all_ok)
  | m :: rest =>
      current' <- update_current current (m_time_signature m) ;;
      r <- validate_measure m current' ;;
      validate_loop current' (results ++ [r])%list (all_ok && both_valid r) rest
  end.

Definition count_where (p : validation_result -> bool) (rs : list validation_result) : nat :=
  List.length (filter p rs).

(** [sum(f(r) for r in results) / len(results) if results else 0]: the sum
    starts from the integer 0 and adds the floats one by one. *)
Definition average (f : validation_result -> pyfloat) (rs : list validation_result)
  : pyfloat :=
  match rs with
  | [] => Finite (0 # 1)
  | _ :: _ =>
      float_div_count
        (fold_left (fun acc r => float_add acc (f r)) rs (Finite (0 # 1)))
        (List.length rs)
  end.

Definition no_measures_message : string := "No measures found in music data".

Definition validate_all_measures (music_data : score) : result report :=
  ts <- global_time_signature music_data ;;
  let measures := s_measures music_data in
  match measures with
  | [] => Ok (ErrorReport no_measures_message)
  | _ :: _ =>
      out <- validate_loop ts [] true measures ;;
      let (results, all_ok) := out in
      let valid_count := count_where both_valid results in
      let invalid_count := (List.length results - valid_count)%nat in
      nd <- ts_fields ts ;;
      let (n, d) := nd in
      ts_str <- render_ts n d ;;
      Ok (SuccessReport
            {| agg_time_signature := ts_str;
               total_measures := List.length measures;
               valid_measures := valid_count;
               invalid_measures := invalid_count;
               all_valid := all_ok;
               measure_results := results;
               agg_summary :=
                 {| right_hand_valid_count := count_where right_hand_valid results;
                    left_hand_valid_count := count_where left_hand_valid results;
                    average_right_hand_error := average right_hand_error results;
                    average_left_hand_error := average left_hand_error results |} |})
  end.

(** ** The agent tool around the validator *)

(** What [agent_tools.validate_all_measures] returns: the report of the
    validator as it is, or, for an exception [e] caught by its
    [except Exception], the dict [{"status": "error", "error_message":
    str(e)}], kept here as the exception it was made from. *)
Inductive tool_report : Type :=
| ToolReport (r : report)
| ToolCaught (e : exn).

(** [agent_tools.validate_all_measures(music_data)] *)
Definition tool_validate_all_measures (music_data : score) : tool_report :=
  match validate_all_measures music_data with
  | Ok r => ToolReport r
  | Raise e => ToolCaught e
  end.

(** The ["status"] of the dict. *)
Definition tool_status (t : tool_report) : string :=
  match t with
  | ToolReport (SuccessReport _) => "success"
  | ToolReport (ErrorReport _) => "error"
  | ToolCaught _ => "error"
  end.

(** * Vocabulary of the statements *)

(** The parses of the duration expressions of the events, in order; the
    first exception ends it. *)
Fixpoint parse_all (events : list event) : result (list Q) :=
  match events with
  | [] => Ok []
  | e :: rest =>
      d <- parse_duration (duration_input_of e) ;;
      ds <- parse_all rest ;;
      Ok (d :: ds)
  end.

(** The parses of a list of duration expressions, in order; the first
    exception ends it. *)
Fixpoint parse_each (exprs : list pyval) : result (list Q) :=
  match exprs with
  | [] => Ok []
  | v :: rest =>
      d <- parse_duration v ;;
      ds <- parse_each rest ;;
      Ok (d :: ds)
  end.

(** The sum of a list of rationals. *)
Definition sum_list (ds : list Q) : Q := fold_right Qplus (0 # 1)%Q ds.

(** A duration expression that is present and empty: [None], or a string that
    is empty or holds white space only. *)
Definition blank_duration (v : pyval) : bool :=
  match v with
  | VNone => true
  | VStr s => PyStr.is_empty (PyStr.strip s)
  | _ => false
  end.

(** The names of the table with a dotted variant. *)
Definition dotted_units : list string :=
  ["whole"; "half"; "quarter"; "eighth"; "sixteenth"].



(** The expected duration of a measure in N/D, in quarter-note beats. *)
Definition expected_beats (n d : Z) : Q := (inject_Z n * (4 # 1) / inject_Z d)%Q.

(** A value that [float()] renders without overflow. *)
Definition representable (x : Q) : Prop := (Qabs x < float_overflow_bound)%Q.

(** An integer that [str()] renders: at most 4300 digits. *)
Definition renderable (n : Z) : Prop :=
  (PyStr.decimal_digits n <= PyStr.max_str_digits)%nat.

(** The signature a string states: exactly two fields around a slash, both
    integers. *)
Definition parse_signature (s : string) : option (Z * Z) :=
  let parts := PyStr.split slash s in
  if (List.length parts =? 2)%nat then
    match PyStr.py_int (nth 0 parts EmptyString), PyStr.py_int (nth 1 parts EmptyString) with
    | Ok n, Ok d => Some (n, d)
    | _, _ => None
    end
  else None.

(** The signature a value states: a pair, or a string that reads as N/D. *)
Definition stated_signature (v : ts_value) : option (Z * Z) :=
  match v with
  | TSDict n d => Some (n, d)
  | TSStr s => parse_signature s
  | _ => None
  end.

(** The explicit signature a measure carries, if any. *)
Definition explicit_signature (m : measure) : option (Z * Z) :=
  stated_signature (m_time_signature m).

(** The global default a score gives, if any. *)
Definition global_default (sc : score) : option (Z * Z) :=
  match s_time_signature sc with
  | Some v => stated_signature v
  | None => None
  end.

(** The explicit signature of the nearest measure, at index [i] or before it,
    that carries one. *)
Fixpoint nearest_explicit (ms : list measure) (i : nat) : option (Z * Z) :=
  match match nth_error ms i with
        | Some m => explicit_signature m
        | None => None
        end with
  | Some sig => Some sig
  | None =>
      match i with
      | O => None
      | S j => nearest_explicit ms j
      end
  end.

(** The effective signature of measure [i], as the resolver's rule words it:
    the measure's own, else the nearest preceding explicit one, else the
    global default, else 4/4. *)
Definition resolved_signature (sc : score) (i : nat) : Z * Z :=
  match nearest_explicit (s_measures sc) i with
  | Some sig => sig
  | None =>
      match global_default sc with
      | Some sig => sig
      | None => (4, 4)
      end
  end.

(** The signature found, or else the fallback. *)
Definition or_else (o : option (Z * Z)) (fallback : Z * Z) : Z * Z :=
  match o with
  | Some sig => sig
  | None => fallback
  end.


(** Voices used as examples. *)
Definition four_quarters : list event :=
  [mkEvent ["C4"] (Some (VStr "quarter")); mkEvent ["D4"] (Some (VStr "quarter"));
   mkEvent ["E4"] (Some (VStr "quarter")); mkEvent ["F4"] (Some (VStr "quarter"))].

Definition three_quarters : list event :=
  [mkEvent ["C3"; "E3"] (Some (VStr "half")); mkEvent ["G2"] (Some (VStr "quarter"))].

Definition two_quarters : list event :=
  [mkEvent ["C4"] (Some (VStr "quarter")); mkEvent ["D4"] (Some (VStr "quarter"))].

(** A piece whose signature changes: 4/4 stated twice, then ["3/4"], then a
    measure that states none, then 2/4. *)
Definition changing_piece : score :=
  mkScore (Some (TSDict 4 4))
    [ mkMeasure (Some (VOther true "1")) (TSDict 4 4) four_quarters four_quarters;
      mkMeasure (Some (VOther true "2")) (TSStr "3/4") three_quarters three_quarters;
      mkMeasure (Some (VOther true "3")) TSNone three_quarters three_quarters;
      mkMeasure (Some (VOther true "4")) (TSDict 2 4) two_quarters two_quarters ].

(** [measure.get("id", "?")] *)
Definition measure_label (m : measure) : pyval :=
  match m_id m with
  | Some v => v
  | None => VStr "?"
  end.

(** A whole number of thirty-second notes: an integer multiple of 1/8 beat. *)
Definition whole_eighths (q : Q) : Prop := exists k : Z, (q == k # 8)%Q.

(** Induction on duration values, through the elements of a list. *)
Section PyvalInduction.

Variable P : pyval -> Prop.
Hypothesis HNone : P VNone.
Hypothesis HStr : forall s : string, P (VStr s).
Hypothesis HList : forall l : list pyval, Forall P l -> P (VList l).
Hypothesis HOther : forall (b : bool) (r : string), P (VOther b r).

Fixpoint pyval_induction (v : pyval) : P v :=
  match v with
  | VNone => HNone
  | VStr s => HStr s
  | VList l =>
      HList l
        ((fix all (l : list pyval) : Forall P l :=
            match l with
            | [] => Forall_nil P
            | x :: t => Forall_cons x (pyval_induction x) (all t)
            end) l)
  | VOther b r => HOther b r
  end.

End PyvalInduction.

(** A duration the parser can return: not negative, and a whole number of
    thirty-second notes. *)
Definition regular_duration (q : Q) : Prop := (0 <= q)%Q /\ whole_eighths q.

(** [sep.join(parts)] for a one-character separator *)
Fixpoint str_join (sep : ascii) (parts : list string) : string :=
  match parts with
  | [] => EmptyString
  | p :: rest =>
      match rest with
      | [] => p
      | _ :: _ => p ++ String sep (str_join sep rest)
      end
  end.

(** Two parts of a comma form that the parser cannot tell apart (the same
    stripped, lower-case text), the second free of commas. *)
Definition same_part (p p' : string) : Prop :=
  PyStr.lower (PyStr.strip p') = PyStr.lower (PyStr.strip p)
  /\ PyStr.contains Parser.comma p' = false.

(** The measure with its two hands exchanged, and the result with the fields
    of its two hands exchanged. *)
Definition swap_hands (m : measure) : measure :=
  mkMeasure (m_id m) (m_time_signature m) (m_left_hand m) (m_right_hand m).

Definition swap_result (r : validation_result) : validation_result :=
  {| measure_id := measure_id r;
     time_signature := time_signature r;
     expected_duration := expected_duration r;
     right_hand_duration := left_hand_duration r;
     left_hand_duration := right_hand_duration r;
     right_hand_valid := left_hand_valid r;
     left_hand_valid := right_hand_valid r;
     both_valid := both_valid r;
     right_hand_error := left_hand_error r;
     left_hand_error := right_hand_error r |}.

(** The same music with other pitches: [f] gives the new notes of each event. *)
Definition renote_events (f : event -> list string) (events : list event) : list event :=
  map (fun e => mkEvent (f e) (ev_duration e)) events.

Definition renote_measure (f : event -> list string) (m : measure) : measure :=
  mkMeasure (m_id m) (m_time_signature m)
    (renote_events f (m_right_hand m)) (renote_events f (m_left_hand m)).

Definition renote_score (f : event -> list string) (sc : score) : score :=
  mkScore (s_time_signature sc) (map (renote_measure f) (s_measures sc)).

(** The signature as the value passed to [validate_measure]. *)
Definition ts_of (sig : Z * Z) : ts_value := let (n, d) := sig in TSDict n d.

(** The results the rule prescribes for the measures from index [i] on: each
    measure validated on its own against the signature resolved for it. *)
Fixpoint validate_each (sc : score) (i : nat) (ms : list measure)
  : result (list validation_result) :=
  match ms with
  | [] => Ok []
  | m :: rest =>
      r <- validate_measure m (ts_of (resolved_signature sc i)) ;;
      rs <- validate_each sc (S i) rest ;;
      Ok (r :: rs)
  end.

(** The digits of a decimal numeral, most significant first. *)
Fixpoint uint_digits (d : Decimal.uint) : list Z :=
  match d with
  | Decimal.Nil => []
  | Decimal.D0 l => 0 :: uint_digits l
  | Decimal.D1 l => 1 :: uint_digits l
  | Decimal.D2 l => 2 :: uint_digits l
  | Decimal.D3 l => 3 :: uint_digits l
  | Decimal.D4 l => 4 :: uint_digits l
  | Decimal.D5 l => 5 :: uint_digits l
  | Decimal.D6 l => 6 :: uint_digits l
  | Decimal.D7 l => 7 :: uint_digits l
  | Decimal.D8 l => 8 :: uint_digits l
  | Decimal.D9 l => 9 :: uint_digits l
  end.

(** * Properties *)

(** ** Strings *)

Module PyStrFacts.

Import PyStr.

(** A property of every code point below 256, decided by enumeration. *)
Ltac by_cases_on_char c :=
  destruct c as [[] [] [] [] [] [] [] []]; vm_compute; reflexivity.

Lemma lower_char_idempotent (c : ascii) : lower_char (lower_char c) = lower_char c.
Proof. by_cases_on_char c. Qed.

Lemma is_space_lower_char (c : ascii) : is_space (lower_char c) = is_space c.
Proof. by_cases_on_char c. Qed.

Lemma lower_char_eqb_comma (c : ascii) :
  Ascii.eqb (lower_char c) ","%char = Ascii.eqb c ","%char.
Proof. by_cases_on_char c. Qed.

Lemma lower_idempotent (s : string) : lower (lower s) = lower s.
Proof.
  induction s as [|c t IH]; simpl; [reflexivity|].
  now rewrite lower_char_idempotent, IH.
Qed.

Lemma is_empty_lower (s : string) : is_empty (lower s) = is_empty s.
Proof. now destruct s. Qed.

Lemma is_empty_true (s : string) : is_empty s = true -> s = EmptyString.
Proof. destruct s; [reflexivity|discriminate]. Qed.

Lemma lower_lstrip (s : string) :
  lower (lstrip_by is_space s) = lstrip_by is_space (lower s).
Proof.
  induction s as [|c t IH]; simpl; [reflexivity|].
  rewrite is_space_lower_char. now destruct (is_space c).
Qed.

Lemma lower_rstrip (s : string) :
  lower (rstrip_by is_space s) = rstrip_by is_space (lower s).
Proof.
  induction s as [|c t IH]; simpl; [reflexivity|].
  rewrite is_space_lower_char, <- IH, is_empty_lower.
  now destruct (is_space c && is_empty (rstrip_by is_space t)).
Qed.

Lemma lower_strip (s : string) : lower (strip s) = strip (lower s).
Proof. unfold strip. now rewrite lower_rstrip, lower_lstrip. Qed.

Lemma contains_lower_comma (s : string) :
  contains ","%char (lower s) = contains ","%char s.
Proof.
  induction s as [|c t IH]; simpl; [reflexivity|].
  now rewrite lower_char_eqb_comma, IH.
Qed.

Lemma contains_lstrip (sp : ascii -> bool) (c : ascii) (s : string) :
  contains c s = false -> contains c (lstrip_by sp s) = false.
Proof.
  induction s as [|a t IH]; simpl; [easy|].
  intros H. apply orb_false_iff in H as [Ha Ht].
  destruct (sp a); [now apply IH|]. simpl. now rewrite Ha, Ht.
Qed.

Lemma contains_rstrip (sp : ascii -> bool) (c : ascii) (s : string) :
  contains c s = false -> contains c (rstrip_by sp s) = false.
Proof.
  induction s as [|a t IH]; simpl; [easy|].
  intros H. apply orb_false_iff in H as [Ha Ht].
  destruct (sp a && is_empty (rstrip_by sp t)); [reflexivity|].
  simpl. now rewrite Ha, IH.
Qed.

Lemma contains_strip (c : ascii) (s : string) :
  contains c s = false -> contains c (strip s) = false.
Proof. intros H. unfold strip. now apply contains_rstrip, contains_lstrip. Qed.

Lemma split_nonempty (sep : ascii) (s : string) : split sep s <> [].
Proof.
  destruct s as [|c t]; simpl; [discriminate|].
  destruct (Ascii.eqb c sep); [discriminate|].
  destruct (split sep t); discriminate.
Qed.

(** No field of [s.split(sep)] holds the separator. *)
Lemma split_fields_free (sep : ascii) (s : string) :
  Forall (fun part => contains sep part = false) (split sep s).
Proof.
  induction s as [|c t IH]; simpl.
  - now repeat constructor.
  - destruct (Ascii.eqb c sep) eqn:E.
    + now constructor.
    + destruct (split sep t) as [|h r].
      * constructor; [|constructor]. simpl. now rewrite E.
      * inversion IH; subst. constructor; [|assumption].
        simpl. now rewrite E.
Qed.

End PyStrFacts.

(** ** The parser's recursion *)

Module ParserFacts.

Import PyStr PyStrFacts Parser.

(** The body calls [self] only when the normalized text holds a comma. *)
Lemma parse_body_no_comma (f g : string -> result Q) (ne : bool) (text : string) :
  contains comma (lower (strip text)) = false ->
  parse_body f ne text = parse_body g ne text.
Proof. intros H. unfold parse_body. now rewrite H. Qed.

Lemma part_has_no_comma (part : string) :
  contains comma part = false ->
  contains comma (lower (strip (strip part))) = false.
Proof.
  intros H. unfold comma. rewrite contains_lower_comma.
  now apply contains_strip, contains_strip.
Qed.

Lemma parse_body_ext (f g : string -> result Q) (ne : bool) (text : string) :
  (forall part, contains comma part = false -> f (strip part) = g (strip part)) ->
  parse_body f ne text = parse_body g ne text.
Proof.
  intros H. unfold parse_body.
  destruct (negb ne); [reflexivity|].
  destruct (is_empty (lower (strip text))); [reflexivity|].
  destruct (contains comma (lower (strip text))); [|reflexivity].
  f_equal. apply map_ext_in. intros part Hin. apply H.
  pose proof (split_fields_free comma (lower (strip text))) as F.
  rewrite Forall_forall in F. now apply F.
Qed.

(** [parse_text] satisfies the recursive equation of the source: it is the
    body of [parse_duration] with [parse_text] itself at the recursive call. *)
Lemma parse_text_unfold (s : string) :
  parse_text s = parse_body parse_text (negb (is_empty s)) s.
Proof.
  unfold parse_text at 1. apply parse_body_ext. intros part H.
  unfold parse_text, parse_text_leaf.
  apply parse_body_no_comma. now apply part_has_no_comma.
Qed.

End ParserFacts.

(** [parse_duration] on a string is [parse_text]. *)
Lemma parse_duration_str (s : string) : parse_duration (VStr s) = Parser.parse_text s.
Proof. simpl. symmetry. apply ParserFacts.parse_text_unfold. Qed.

(** ** Fractions in lowest terms *)

Lemma frac_add_assoc_red (total d rest : Q) :
  Qred (frac_add total d + rest) = Qred (total + (d + rest)).
Proof.
  apply Qred_complete. unfold frac_add. rewrite Qred_correct. ring.
Qed.

(** ** Lists as duration expressions *)

(** C5. A non-empty list of duration expressions parses to exactly the parse of
    its last element (whatever that is: a value or an exception), not to the
    sum of its elements: [["half", "sixteenth"]] parses like ["sixteenth"],
    to 1/4 and not to 9/4. The empty list parses to 0. *)
Theorem parse_duration_list_last :
  (forall (x : pyval) (l : list pyval),
      parse_duration (VList (x :: l)) = parse_duration (last (x :: l) VNone))
  /\ parse_duration (VList []) = Ok (0 # 1)%Q
  /\ parse_duration (VList [VStr "half"; VStr "sixteenth"])
     = parse_duration (VStr "sixteenth")
  /\ parse_duration (VStr "sixteenth") = Ok (1 # 4)%Q
  /\ parse_duration (VStr "half") = Ok (2 # 1)%Q.
Proof.
  split; [|repeat split; vm_compute; reflexivity].
  intros x l. revert x.
  induction l as [|y l IH]; intros x.
  - reflexivity.
  - change (last (x :: y :: l) VNone) with (last (y :: l) VNone).
    rewrite <- IH. reflexivity.
Qed.

(** ** The duration of a voice *)

Lemma add_durations_sum (total : Q) (e : event) (rest : list event) :
  add_durations total (e :: rest)
  = (ds <- parse_all (e :: rest) ;; Ok (Qred (total + sum_list ds))).
Proof.
  revert total e. induction rest as [|e' rest IH]; intros total e.
  - cbn [add_durations parse_all].
    destruct (parse_duration (duration_input_of e)) as [d|x]; [|reflexivity].
    cbn [bind]. unfold frac_add. f_equal. apply Qred_complete.
    unfold sum_list. cbn [fold_right]. ring.
  - change (add_durations total (e :: e' :: rest))
      with (duration <- parse_duration (duration_input_of e) ;;
            add_durations (frac_add total duration) (e' :: rest)).
    change (parse_all (e :: e' :: rest))
      with (d <- parse_duration (duration_input_of e) ;;
            ds <- parse_all (e' :: rest) ;; Ok (d :: ds)).
    destruct (parse_duration (duration_input_of e)) as [d|x]; [|reflexivity].
    cbn [bind]. rewrite IH.
    destruct (parse_all (e' :: rest)) as [ds|x]; [|reflexivity].
    cbn [bind]. f_equal.
    change (sum_list (d :: ds)) with (d + sum_list ds)%Q.
    apply frac_add_assoc_red.
Qed.

Lemma calculate_as_sum (events : list event) (ts : ts_value) (lh : bool) :
  calculate_measure_duration_events events ts lh
  = (ds <- parse_all events ;; Ok (Qred (sum_list ds))).
Proof.
  destruct events as [|e rest]; [reflexivity|].
  unfold calculate_measure_duration_events. rewrite add_durations_sum.
  destruct (parse_all (e :: rest)) as [ds|x]; [|reflexivity].
  cbn [bind]. f_equal. apply Qred_complete. ring.
Qed.

Lemma parse_all_notes (f : event -> list string) (events : list event) :
  parse_all (map (fun e => mkEvent (f e) (ev_duration e)) events) = parse_all events.
Proof.
  induction events as [|e rest IH]; [reflexivity|].
  simpl. rewrite IH. reflexivity.
Qed.

Lemma parse_all_app (l1 l2 : list event) :
  parse_all (l1 ++ l2)%list
  = (ds1 <- parse_all l1 ;; ds2 <- parse_all l2 ;; Ok (ds1 ++ ds2)%list).
Proof.
  induction l1 as [|e l1 IH]; simpl.
  - now destruct (parse_all l2).
  - destruct (parse_duration (duration_input_of e)); [|reflexivity].
    cbn [bind]. rewrite IH.
    destruct (parse_all l1); [|reflexivity].
    cbn [bind]. now destruct (parse_all l2).
Qed.

Lemma sum_list_app (l1 l2 : list Q) :
  (sum_list (l1 ++ l2)%list == sum_list l1 + sum_list l2)%Q.
Proof.
  induction l1 as [|a l1 IH]; simpl.
  - ring.
  - rewrite IH. ring.
Qed.

Lemma parse_all_each (events : list event) :
  parse_all events
  = parse_each (map (fun e => match ev_duration e with
                              | Some v => v
                              | None => VStr "quarter"
                              end) events).
Proof.
  induction events as [|e rest IH]; [reflexivity|].
  cbn [parse_all parse_each map]. unfold duration_input_of. rewrite IH. reflexivity.
Qed.

Lemma parse_each_ok (exprs : list pyval) (ds : list Q) :
  Forall2 (fun v d => parse_duration v = Ok d) exprs ds ->
  parse_each exprs = Ok ds.
Proof.
  induction 1 as [|v d exprs ds Hv _ IH]; [reflexivity|].
  cbn [parse_each]. rewrite Hv, IH. reflexivity.
Qed.

(** C6. The duration of a voice is the sum, over its events in order, of the
    parse of each event's own duration expression (the fraction in lowest
    terms; the first expression that raises ends the sum, and an event without
    the key is read as ["quarter"]): when the expression of every event parses,
    the total is the sum of these parses, so a whole note followed by a
    sixteenth counts 17/4 and three eighths followed by a dotted half count
    9/2. The pitches of an event play no part: replacing the notes of every
    event by anything else leaves the total unchanged, a chord of three
    pitches with duration ["quarter"] counts one beat and with duration
    ["half"] two, and an empty voice sums to 0. *)
Theorem voice_duration_is_sum :
  (forall (events : list event) (ts : ts_value) (lh : bool),
      calculate_measure_duration_events events ts lh
      = (ds <- parse_each (map (fun e => match ev_duration e with
                                         | Some v => v
                                         | None => VStr "quarter"
                                         end) events) ;;
         Ok (Qred (sum_list ds))))
  /\ (forall (voice : list (list string * pyval)) (ds : list Q) (ts : ts_value) (lh : bool),
         Forall2 (fun p d => parse_duration (snd p) = Ok d) voice ds ->
         calculate_measure_duration_events
           (map (fun p => mkEvent (fst p) (Some (snd p))) voice) ts lh
         = Ok (Qred (sum_list ds)))
  /\ (forall (f : event -> list string) (events : list event) (ts : ts_value) (lh : bool),
         calculate_measure_duration_events
           (map (fun e => mkEvent (f e) (ev_duration e)) events) ts lh
         = calculate_measure_duration_events events ts lh)
  /\ (forall (ts : ts_value) (lh : bool),
         calculate_measure_duration_events
           [mkEvent ["C4"] (Some (VStr "whole")); mkEvent ["D4"] (Some (VStr "sixteenth"))]
           ts lh
         = Ok (17 # 4)%Q)
  /\ (forall (ts : ts_value) (lh : bool),
         calculate_measure_duration_events
           [mkEvent ["C4"] (Some (VStr "3 * eighth"));
            mkEvent ["E4"; "G4"] (Some (VStr "dotted half"))]
           ts lh
         = Ok (9 # 2)%Q)
  /\ (forall (ts : ts_value) (lh : bool),
         calculate_measure_duration_events
           [mkEvent ["C4"; "E4"; "G4"] (Some (VStr "quarter"))] ts lh
         = Ok (1 # 1)%Q)
  /\ (forall (ts : ts_value) (lh : bool),
         calculate_measure_duration_events
           [mkEvent ["C4"; "E4"; "G4"] (Some (VStr "half"))] ts lh
         = Ok (2 # 1)%Q)
  /\ (forall (ts : ts_value) (lh : bool),
         calculate_measure_duration_events [] ts lh = Ok (0 # 1)%Q).
Proof.
  split; [intros; rewrite calculate_as_sum, parse_all_each; reflexivity|].
  split.
  { intros voice ds ts lh H.
    rewrite calculate_as_sum, parse_all_each, map_map. cbn [ev_duration].
    rewrite (parse_each_ok (map (fun p => snd p) voice) ds).
    - reflexivity.
    - induction H as [|p d voice ds Hp _ IH]; constructor; assumption. }
  split; [|repeat split; intros; vm_compute; reflexivity].
  intros f events ts lh. rewrite !calculate_as_sum, parse_all_notes. reflexivity.
Qed.

Lemma voice_duration_is_sum_witness :
  calculate_measure_duration_events
    (map (fun p => mkEvent (fst p) (Some (snd p)))
       [(["C4"; "E4"], VStr "half"); (["G3"], VStr "two eighth"); ([], VList [VStr "sixteenth"])])
    TSNone true
  = Ok (Qred (sum_list [2 # 1; 1 # 1; 1 # 4]))%Q.
Proof.
  destruct voice_duration_is_sum as (_ & H & _).
  apply H. repeat constructor.
Defined.

(** ** Empty and missing duration expressions *)

Lemma blank_duration_parses_to_zero (v : pyval) :
  blank_duration v = true -> parse_duration v = Ok (0 # 1)%Q.
Proof.
  destruct v as [|s|l|b r]; try discriminate; intros H; [reflexivity|].
  simpl in H. apply PyStrFacts.is_empty_true in H.
  cbn [parse_duration truthy text_of]. unfold Parser.parse_body.
  rewrite H. cbn. now destruct (negb (negb (PyStr.is_empty s))).
Qed.

Lemma calculate_skips_zero (pre post : list event) (e : event) (ts : ts_value) (lh : bool) :
  parse_duration (duration_input_of e) = Ok (0 # 1)%Q ->
  calculate_measure_duration_events (pre ++ e :: post)%list ts lh
  = calculate_measure_duration_events (pre ++ post)%list ts lh.
Proof.
  intros H. rewrite !calculate_as_sum, !parse_all_app.
  cbn [parse_all]. rewrite H. cbn [bind].
  destruct (parse_all pre) as [ds1|x]; [|reflexivity]. cbn [bind].
  destruct (parse_all post) as [ds2|x]; [|reflexivity]. cbn [bind].
  f_equal. apply Qred_complete. rewrite !sum_list_app.
  unfold sum_list at 2. cbn [fold_right]. fold (sum_list ds2). ring.
Qed.

(** C9, as the claim states it, fails for a missing field: an event without a
    ["duration"] key does not count 0 beats. *)
Lemma missing_duration_is_not_zero :
  ~ (forall (e : event) (ts : ts_value) (lh : bool),
        ev_duration e = None ->
        calculate_measure_duration_events [e] ts lh = Ok (0 # 1)%Q).
Proof.
  intros H. specialize (H (mkEvent ["C4"] None) default_ts false eq_refl).
  vm_compute in H. discriminate H.
Qed.

(** C9, amended. An event whose duration expression is present and empty
    ([None], the empty string, or a string of white space only) adds exactly 0
    beats: the voice's total is the total of the voice without that event. An
    event whose ["duration"] key is missing is read as a ["quarter"] and adds
    exactly 1 beat. *)
Theorem blank_duration_adds_nothing
  (pre post : list event) (e : event) (ts : ts_value) (lh : bool) :
  (forall v, ev_duration e = Some v -> blank_duration v = true ->
     parse_duration (duration_input_of e) = Ok (0 # 1)%Q
     /\ calculate_measure_duration_events (pre ++ e :: post)%list ts lh
        = calculate_measure_duration_events (pre ++ post)%list ts lh)
  /\ (ev_duration e = None ->
      parse_duration (duration_input_of e) = Ok (1 # 1)%Q
      /\ calculate_measure_duration_events (pre ++ e :: post)%list ts lh
         = calculate_measure_duration_events
             (pre ++ mkEvent (ev_notes e) (Some (VStr "quarter")) :: post)%list ts lh).
Proof.
  split.
  - intros v Hv Hb.
    assert (Hz : parse_duration (duration_input_of e) = Ok (0 # 1)%Q).
    { unfold duration_input_of. rewrite Hv. now apply blank_duration_parses_to_zero. }
    split; [exact Hz|]. now apply calculate_skips_zero.
  - intros Hn. destruct e as [notes dur]. simpl in Hn. subst dur.
    split; [vm_compute; reflexivity|].
    rewrite !calculate_as_sum, !parse_all_app. reflexivity.
Qed.

Lemma blank_duration_adds_nothing_witness :
  calculate_measure_duration_events
    ([mkEvent ["C4"] (Some (VStr "half"))]
       ++ mkEvent ["D4"] (Some (VStr "  ")) :: [mkEvent ["E4"] (Some (VStr "half"))])%list
    default_ts false
  = calculate_measure_duration_events
      ([mkEvent ["C4"] (Some (VStr "half"))] ++ [mkEvent ["E4"] (Some (VStr "half"))])%list
      default_ts false
  /\ parse_duration (duration_input_of (mkEvent ["D4"] None)) = Ok (1 # 1)%Q.
Proof.
  split.
  - apply (proj1 (blank_duration_adds_nothing
                    [mkEvent ["C4"] (Some (VStr "half"))]
                    [mkEvent ["E4"] (Some (VStr "half"))]
                    (mkEvent ["D4"] (Some (VStr "  "))) default_ts false)
             (VStr "  ") eq_refl eq_refl).
  - apply (proj2 (blank_duration_adds_nothing [] [] (mkEvent ["D4"] None) default_ts false)
             eq_refl).
Defined.

(** ** Where the parser raises *)

(** C4. The parser is not total: in the form [<int> * <token>] the text before
    the asterisk goes to [int()] unguarded, and [int("three")] raises
    [ValueError]. *)
Theorem parse_duration_raises_on_bad_multiplier :
  parse_duration (VStr "three * eighth") = Raise ValueError
  /\ parse_duration (VStr "* quarter") = Raise ValueError
  /\ calculate_measure_duration_events
       [mkEvent ["C4"] (Some (VStr "1.5 * quarter"))] default_ts false
     = Raise ValueError.
Proof. repeat split; vm_compute; reflexivity. Qed.

(** ** The table lookup *)

Lemma dict_get_find {V : Type} (d : list (string * V)) (key : string) (default : V) :
  dict_get d key default = match dict_find d key with Some v => v | None => default end.
Proof.
  induction d as [|[k v] r IH]; simpl; [reflexivity|].
  now destruct (String.eqb k key).
Qed.

Module LookupFacts.

Import PyStr PyStrFacts Parser.

Lemma lower_char_eqb_star (c : ascii) :
  Ascii.eqb (lower_char c) "*"%char = Ascii.eqb c "*"%char.
Proof. by_cases_on_char c. Qed.

Lemma contains_lower_star (s : string) :
  contains star (lower s) = contains star s.
Proof.
  induction s as [|c t IH]; simpl; [reflexivity|].
  unfold star in *. now rewrite lower_char_eqb_star, IH.
Qed.

(** The parse of a string depends on its text only through the normalized
    text [lower (strip s)]. *)
Lemma parse_duration_normalized (s1 s2 : string) :
  lower (strip s1) = lower (strip s2) ->
  parse_duration (VStr s1) = parse_duration (VStr s2).
Proof.
  intros H. cbn [parse_duration truthy text_of]. unfold parse_body. rewrite <- H.
  destruct (is_empty s1) eqn:E1, (is_empty s2) eqn:E2; cbn [negb]; try reflexivity.
  - apply is_empty_true in E1. subst s1. reflexivity.
  - apply is_empty_true in E2. subst s2. cbn in H. rewrite H. reflexivity.
Qed.

Lemma parse_duration_case_insensitive (s1 s2 : string) :
  lower s1 = lower s2 -> parse_duration (VStr s1) = parse_duration (VStr s2).
Proof.
  intros H. apply parse_duration_normalized. now rewrite !lower_strip, H.
Qed.

(** A name without comma and asterisk that is not a spelled-out count is
    looked up in the table as it stands. *)
Lemma parse_duration_plain (s : string) :
  contains comma s = false ->
  contains star s = false ->
  (forall w0 w1 rest, split_ws (lower (strip s)) = w0 :: w1 :: rest ->
                      dict_find number_words w0 = None) ->
  parse_duration (VStr s) = Ok (dict_get DURATION_VALUES (lower (strip s)) (0 # 1)%Q).
Proof.
  intros Hc Hs Hw. cbn [parse_duration truthy text_of]. unfold parse_body.
  destruct (negb (negb (is_empty s))) eqn:E.
  - destruct s; [reflexivity|discriminate].
  - destruct (is_empty (lower (strip s))) eqn:E2.
    + apply is_empty_true in E2. rewrite E2. reflexivity.
    + unfold comma in *. rewrite contains_lower_comma, (contains_strip _ _ Hc).
      rewrite contains_lower_star, (contains_strip _ _ Hs).
      unfold parse_words.
      destruct (split_ws (lower (strip s))) as [|w0 [|w1 rest]] eqn:W; try reflexivity.
      now rewrite (Hw w0 w1 rest eq_refl).
Qed.

End LookupFacts.

(** C7. The name [thirty-second] does not parse to 1/8: the table spells its
    key [thirty_second], with an underscore, so the hyphenated name (the one
    [tools/musicxml_parser.py] writes into the durations it produces) is an
    unrecognized name and parses to 0. *)
Theorem thirty_second_hyphen_unrecognized :
  parse_duration (VStr "thirty-second") = Ok (0 # 1)%Q
  /\ parse_duration (VStr "thirty-second") <> Ok (1 # 8)%Q
  /\ dict_find DURATION_VALUES "thirty-second" = None
  /\ parse_duration (VStr "thirty_second") = Ok (1 # 8)%Q.
Proof.
  split; [vm_compute; reflexivity|].
  split; [vm_compute; discriminate|].
  split; vm_compute; reflexivity.
Qed.

(** X22. The lookup, as the table has it. The lookup is
    case-insensitive: two strings with the same lower-case text parse alike,
    and ["QUARTER"] and ["quarter"] both give 1. The table maps whole=4, half=2, quarter=1, eighth=1/2, sixteenth=1/4,
    [thirty_second] (with an underscore) =1/8, rest=0, and the misspellings
    eigth and eigths to 1/2; whole, half, quarter, eighth and sixteenth have a
    dotted variant, each 3/2 times the undotted value (no dotted
    thirty_second: it parses to 0). A name without comma and asterisk that is
    not a spelled-out count and not a key of the table parses to 0; the
    hyphenated thirty-second is such a name. *)
Theorem table_lookup :
  (forall s1 s2 : string,
      PyStr.lower s1 = PyStr.lower s2 ->
      parse_duration (VStr s1) = parse_duration (VStr s2))
  /\ parse_duration (VStr "QUARTER") = Ok (1 # 1)%Q
  /\ parse_duration (VStr "quarter") = Ok (1 # 1)%Q
  /\ map (fun name => parse_duration (VStr name))
       ["whole"; "half"; "quarter"; "eighth"; "sixteenth"; "thirty_second";
        "rest"; "eigth"; "eigths"]
     = map Ok [4 # 1; 2 # 1; 1 # 1; 1 # 2; 1 # 4; 1 # 8; 0 # 1; 1 # 2; 1 # 2]%Q
  /\ (forall unit : string, In unit dotted_units ->
        exists v : Q,
          parse_duration (VStr unit) = Ok v
          /\ parse_duration (VStr ("dotted " ++ unit)) = Ok (frac_mul (3 # 2)%Q v))
  /\ parse_duration (VStr "dotted thirty_second") = Ok (0 # 1)%Q
  /\ (forall s : string,
        PyStr.contains Parser.comma s = false ->
        PyStr.contains Parser.star s = false ->
        (forall w0 w1 rest,
            PyStr.split_ws (PyStr.lower (PyStr.strip s)) = w0 :: w1 :: rest ->
            dict_find number_words w0 = None) ->
        dict_find DURATION_VALUES (PyStr.lower (PyStr.strip s)) = None ->
        parse_duration (VStr s) = Ok (0 # 1)%Q)
  /\ parse_duration (VStr "thirty-second") = Ok (0 # 1)%Q.
Proof.
  split; [exact LookupFacts.parse_duration_case_insensitive|].
  do 3 (split; [vm_compute; reflexivity|]).
  split.
  { intros unit Hin. unfold dotted_units in Hin. simpl in Hin.
    repeat (destruct Hin as [<-|Hin];
            [eexists; split; vm_compute; reflexivity|]).
    contradiction. }
  split; [vm_compute; reflexivity|].
  split; [|vm_compute; reflexivity].
  intros s Hc Hs Hw Hf.
  rewrite (LookupFacts.parse_duration_plain s Hc Hs Hw), dict_get_find, Hf.
  reflexivity.
Qed.

Lemma table_lookup_witness :
  parse_duration (VStr "Dotted Half") = parse_duration (VStr "dotted half")
  /\ (exists v : Q,
         parse_duration (VStr "eighth") = Ok v
         /\ parse_duration (VStr ("dotted " ++ "eighth")) = Ok (frac_mul (3 # 2)%Q v))
  /\ parse_duration (VStr "semiquaver") = Ok (0 # 1)%Q.
Proof.
  destruct table_lookup as (Hcase & _ & _ & _ & Hdot & _ & Hunk & _).
  split; [apply Hcase; reflexivity|].
  split; [apply Hdot; simpl; tauto|].
  apply Hunk; try reflexivity.
  intros w0 w1 rest H. vm_compute in H. discriminate H.
Defined.

(** ** Splitting and stripping a concatenation *)

Module ConcatFacts.

Import PyStr PyStrFacts.

Lemma is_empty_app_cons (x : string) (c : ascii) (y : string) :
  is_empty (x ++ String c y) = false.
Proof. now destruct x. Qed.

Lemma contains_app (c : ascii) (x y : string) :
  contains c (x ++ y) = contains c x || contains c y.
Proof.
  induction x as [|a x IH]; simpl; [reflexivity|].
  now rewrite IH, orb_assoc.
Qed.


Lemma lower_app (x y : string) : lower (x ++ y) = lower x ++ lower y.
Proof. induction x as [|a x IH]; simpl; [reflexivity|]. now rewrite IH. Qed.

Lemma lstrip_app_stop (sp : ascii -> bool) (x : string) (c : ascii) (y : string) :
  sp c = false ->
  lstrip_by sp (x ++ String c y) = lstrip_by sp x ++ String c y.
Proof.
  intros H. induction x as [|a x IH]; simpl.
  - now rewrite H.
  - now destruct (sp a).
Qed.

Lemma rstrip_app_stop (sp : ascii -> bool) (x : string) (c : ascii) (y : string) :
  sp c = false ->
  rstrip_by sp (x ++ String c y) = x ++ String c (rstrip_by sp y).
Proof.
  intros H. induction x as [|a x IH]; simpl.
  - now rewrite H.
  - rewrite IH, is_empty_app_cons, andb_false_r. reflexivity.
Qed.

Lemma lstrip_idempotent (sp : ascii -> bool) (s : string) :
  lstrip_by sp (lstrip_by sp s) = lstrip_by sp s.
Proof.
  induction s as [|a s IH]; simpl; [reflexivity|].
  destruct (sp a) eqn:E; [assumption|]. simpl. now rewrite E.
Qed.

Lemma rstrip_idempotent (sp : ascii -> bool) (s : string) :
  rstrip_by sp (rstrip_by sp s) = rstrip_by sp s.
Proof.
  induction s as [|a s IH]; simpl; [reflexivity|].
  destruct (sp a && is_empty (rstrip_by sp s)) eqn:E; [reflexivity|].
  simpl. now rewrite IH, E.
Qed.

Lemma lstrip_rstrip (sp : ascii -> bool) (s : string) :
  lstrip_by sp (rstrip_by sp s) = rstrip_by sp (lstrip_by sp s).
Proof.
  induction s as [|a s IH]; simpl; [reflexivity|].
  destruct (sp a) eqn:E; simpl.
  - destruct (is_empty (rstrip_by sp s)) eqn:E2; simpl.
    + apply is_empty_true in E2. rewrite E2 in IH. simpl in IH. exact IH.
    + now rewrite E.
  - now rewrite E.
Qed.

Lemma strip_lstrip (s : string) : strip (lstrip_by is_space s) = strip s.
Proof. unfold strip. now rewrite lstrip_idempotent. Qed.

Lemma strip_rstrip (s : string) : strip (rstrip_by is_space s) = strip s.
Proof. unfold strip. now rewrite lstrip_rstrip, rstrip_idempotent. Qed.


Lemma split_free (sep : ascii) (y : string) :
  contains sep y = false -> split sep y = [y].
Proof.
  induction y as [|a y IH]; simpl; [reflexivity|].
  intros H. apply orb_false_iff in H as [Ha Hy].
  now rewrite Ha, (IH Hy).
Qed.

Lemma split_app (sep : ascii) (x y : string) :
  contains sep x = false ->
  split sep (x ++ String sep y) = x :: split sep y.
Proof.
  induction x as [|a x IH]; simpl.
  - now rewrite Ascii.eqb_refl.
  - intros H. apply orb_false_iff in H as [Ha Hx].
    now rewrite Ha, (IH Hx).
Qed.

End ConcatFacts.

(** ** The multiplicative form *)

Module ProductFacts.

Import PyStr PyStrFacts ConcatFacts LookupFacts Parser.


End ProductFacts.

(** ** The spelled-out count *)

Module CountFacts.

Import PyStr PyStrFacts ConcatFacts LookupFacts Parser.










End CountFacts.




(** ** One measure *)

Lemma bind_ok_inv {A B : Type} (r : result A) (k : A -> result B) (b : B) :
  bind r k = Ok b -> exists a, r = Ok a /\ k a = Ok b.
Proof. destruct r as [a|e]; simpl; [eauto|discriminate]. Qed.

Ltac invert_bind H :=
  let a := fresh "a" in
  let E := fresh "E" in
  apply bind_ok_inv in H as (a & E & H).


Lemma py_float_ok (x : Q) (a : pyfloat) :
  py_float x = Ok a -> a = round_double x.
Proof.
  unfold py_float. destruct (Qle_bool float_overflow_bound (Qabs x)); [discriminate|].
  intros H. now inversion H.
Qed.

Lemma render_ts_ok (n d : Z) (s : string) :
  render_ts n d = Ok s -> s = ts_text n d.
Proof.
  unfold render_ts, PyStr.py_str, ts_text.
  destruct (PyStr.max_str_digits <? PyStr.decimal_digits n)%nat; [discriminate|].
  destruct (PyStr.max_str_digits <? PyStr.decimal_digits d)%nat; [discriminate|].
  simpl. intros H. now inversion H.
Qed.

Lemma render_ts_renderable (n d : Z) :
  renderable n -> renderable d -> render_ts n d = Ok (ts_text n d).
Proof.
  unfold renderable, render_ts, PyStr.py_str, ts_text. intros Hn Hd.
  destruct (PyStr.max_str_digits <? PyStr.decimal_digits n)%nat eqn:En;
    [apply Nat.ltb_lt in En; lia|].
  destruct (PyStr.max_str_digits <? PyStr.decimal_digits d)%nat eqn:Ed;
    [apply Nat.ltb_lt in Ed; lia|].
  reflexivity.
Qed.

Lemma render_ts_not_renderable (n d : Z) :
  ~ (renderable n /\ renderable d) -> render_ts n d = Raise ValueError.
Proof.
  unfold renderable, render_ts, PyStr.py_str. intros H.
  destruct (PyStr.max_str_digits <? PyStr.decimal_digits n)%nat eqn:En; [reflexivity|].
  destruct (PyStr.max_str_digits <? PyStr.decimal_digits d)%nat eqn:Ed; [reflexivity|].
  apply Nat.ltb_ge in En, Ed. exfalso. apply H. split; assumption.
Qed.

(** What a returned result was computed from. *)
Lemma validate_measure_inv (m : measure) (ts : ts_value) (r : validation_result) :
  validate_measure m ts = Ok r ->
  exists (n d : Z) (f rh lh : Q),
    effective_time_signature (m_time_signature m) ts = Ok (TSDict n d)
    /\ Fraction n d = Ok f
    /\ calculate_measure_duration_events (m_right_hand m) (TSDict n d) false = Ok rh
    /\ calculate_measure_duration_events (m_left_hand m) (TSDict n d) true = Ok lh
    /\ render_ts n d = Ok (time_signature r)
    /\ expected_duration r = round_double (frac_mul f (4 # 1)%Q)
    /\ right_hand_duration r = round_double rh
    /\ left_hand_duration r = round_double lh
    /\ right_hand_valid r
       = Qle_bool (frac_abs (frac_sub rh (frac_mul f (4 # 1)%Q))) tolerance
    /\ left_hand_valid r
       = Qle_bool (frac_abs (frac_sub lh (frac_mul f (4 # 1)%Q))) tolerance
    /\ both_valid r = right_hand_valid r && left_hand_valid r.
Proof.
  unfold validate_measure. intros H.
  invert_bind H. rename a into ts'.
  invert_bind H. destruct a as [n d].
  destruct ts' as [|s|n' d'|b]; try discriminate. simpl in E0. inversion E0; subst n' d'.
  invert_bind H. rename a into f.
  invert_bind H. rename a into rh.
  invert_bind H. rename a into lh.
  invert_bind H. rename a into right_error.
  invert_bind H. rename a into left_error.
  invert_bind H. rename a into ts_str.
  invert_bind H. rename a into expected_f.
  invert_bind H. rename a into rh_f.
  invert_bind H. rename a into lh_f.
  inversion H; subst r; clear H.
  cbn [time_signature expected_duration right_hand_duration left_hand_duration
       right_hand_valid left_hand_valid both_valid].
  exists n, d, f, rh, lh.
  repeat split; try assumption; try reflexivity; now apply py_float_ok.
Qed.

Lemma py_float_representable (x : Q) :
  representable x -> py_float x = Ok (round_double x).
Proof.
  unfold representable, py_float. intros H.
  destruct (Qle_bool float_overflow_bound (Qabs x)) eqn:E; [|reflexivity].
  apply Qle_bool_iff in E. exfalso. exact (Qlt_not_le _ _ H E).
Qed.

Lemma representable_eq (x y : Q) : (x == y)%Q -> representable x -> representable y.
Proof. unfold representable. intros H. now rewrite H. Qed.

Lemma Fraction_value (n d : Z) :
  d <> 0 -> exists f, Fraction n d = Ok f /\ (f == inject_Z n / inject_Z d)%Q.
Proof.
  intros Hd. destruct d as [|p|p]; [contradiction| |]; unfold Fraction;
    eexists; (split; [reflexivity|]); rewrite Qred_correct;
    unfold Qeq, Qdiv, Qmult, Qinv, inject_Z; simpl; lia.
Qed.

Lemma expected_value (n d : Z) (f : Q) :
  (f == inject_Z n / inject_Z d)%Q -> d <> 0 ->
  (frac_mul f (4 # 1) == expected_beats n d)%Q.
Proof.
  intros H Hd. unfold frac_mul, expected_beats. rewrite Qred_correct, H.
  field. intros Hz. apply Hd.
  unfold Qeq, inject_Z in Hz. simpl in Hz. lia.
Qed.

Lemma error_value (t e e' : Q) :
  (e == e')%Q -> (frac_abs (frac_sub t e) == Qabs (t - e'))%Q.
Proof.
  intros H. unfold frac_abs, frac_sub. now rewrite Qred_correct, H.
Qed.

(** C2. With E = numerator * 4 / denominator the expected duration of the
    effective signature, a voice whose events sum to T is marked valid exactly
    when |T - E| <= 1/1000, and [both_valid] is the conjunction of the two
    flags. The result is returned whenever the numerator and the denominator
    can be rendered by [str] (at most 4300 digits each) and the five values
    rendered as floats are in the range of a double. *)
Theorem validity_within_tolerance
  (m : measure) (ts : ts_value) (n d : Z) (Tr Tl : Q) :
  effective_time_signature (m_time_signature m) ts = Ok (TSDict n d) ->
  d <> 0 ->
  calculate_measure_duration_events (m_right_hand m) (TSDict n d) false = Ok Tr ->
  calculate_measure_duration_events (m_left_hand m) (TSDict n d) true = Ok Tl ->
  (forall r : validation_result,
      validate_measure m ts = Ok r ->
      (right_hand_valid r = true <-> (Qabs (Tr - expected_beats n d) <= 1 # 1000)%Q)
      /\ (left_hand_valid r = true <-> (Qabs (Tl - expected_beats n d) <= 1 # 1000)%Q)
      /\ both_valid r = right_hand_valid r && left_hand_valid r)
  /\ (renderable n -> renderable d ->
      representable (expected_beats n d) ->
      representable Tr -> representable Tl ->
      representable (Tr - expected_beats n d) ->
      representable (Tl - expected_beats n d) ->
      exists r : validation_result, validate_measure m ts = Ok r).
Proof.
  intros Hts Hd Hr Hl.
  destruct (Fraction_value n d Hd) as (f & Hf & Hfv).
  pose proof (expected_value n d f Hfv Hd) as He.
  split.
  - intros r H. apply validate_measure_inv in H
      as (n' & d' & f' & rh & lh & Hts' & Hf' & Hr' & Hl' & _ & _ & _ & _ & Hrv & Hlv & Hb).
    rewrite Hts in Hts'. inversion Hts'; subst n' d'.
    rewrite Hf in Hf'. inversion Hf'; subst f'.
    rewrite Hr in Hr'. inversion Hr'; subst rh.
    rewrite Hl in Hl'. inversion Hl'; subst lh.
    split; [|split; [|exact Hb]].
    + rewrite Hrv, Qle_bool_iff, (error_value Tr _ _ He). reflexivity.
    + rewrite Hlv, Qle_bool_iff, (error_value Tl _ _ He). reflexivity.
  - intros Rn Rd Re Rr Rl Rre Rle.
    unfold validate_measure. rewrite Hts. cbn [bind ts_fields].
    rewrite Hf. cbn [bind]. rewrite Hr, Hl. cbn [bind].
    rewrite (py_float_representable (frac_abs (frac_sub Tr _))).
    2:{ unfold representable. rewrite (error_value Tr _ _ He), Qabs_pos by apply Qabs_nonneg.
        exact Rre. }
    rewrite (py_float_representable (frac_abs (frac_sub Tl _))).
    2:{ unfold representable. rewrite (error_value Tl _ _ He), Qabs_pos by apply Qabs_nonneg.
        exact Rle. }
    rewrite (py_float_representable (frac_mul f (4 # 1)%Q)).
    2:{ apply (representable_eq (expected_beats n d)); [now symmetry|assumption]. }
    rewrite (py_float_representable Tr Rr), (py_float_representable Tl Rl).
    rewrite (render_ts_renderable n d Rn Rd).
    cbn [bind]. eexists. reflexivity.
Qed.

Lemma validity_within_tolerance_witness :
  let m := mkMeasure (Some (VOther true "1")) TSNone four_quarters three_quarters in
  (forall r : validation_result,
      validate_measure m TSNone = Ok r ->
      (right_hand_valid r = true <-> (Qabs ((4 # 1) - expected_beats 4 4) <= 1 # 1000)%Q)
      /\ (left_hand_valid r = true <-> (Qabs ((3 # 1) - expected_beats 4 4) <= 1 # 1000)%Q)
      /\ both_valid r = right_hand_valid r && left_hand_valid r)
  /\ exists r : validation_result, validate_measure m TSNone = Ok r.
Proof.
  intros m.
  destruct (validity_within_tolerance m TSNone 4 4 (4 # 1)%Q (3 # 1)%Q)
    as [Hflags Hreturns];
    [reflexivity | discriminate | reflexivity | reflexivity |].
  split; [exact Hflags|].
  apply Hreturns;
    try (apply Nat.leb_le; vm_compute; reflexivity);
    vm_compute; reflexivity.
Defined.

(** ** The signature of each measure *)

Lemma nearest_explicit_cons (m : measure) (ms : list measure) (j : nat) :
  nearest_explicit (m :: ms) (S j)
  = match nearest_explicit ms j with
    | Some sig => Some sig
    | None => explicit_signature m
    end.
Proof.
  induction j as [|j IH].
  - cbn [nearest_explicit nth_error].
    destruct (match ms with [] => None | m0 :: _ => Some m0 end) as [m0|];
      [destruct (explicit_signature m0)|]; try reflexivity;
      now destruct (explicit_signature m).
  - change (nearest_explicit (m :: ms) (S (S j)))
      with (match match nth_error ms (S j) with
                  | Some m' => explicit_signature m'
                  | None => None
                  end with
            | Some sig => Some sig
            | None => nearest_explicit (m :: ms) (S j)
            end).
    rewrite IH. cbn [nearest_explicit].
    destruct (nth_error ms (S j)) as [m'|]; [destruct (explicit_signature m')|];
      reflexivity.
Qed.

Lemma update_current_stated (n0 d0 : Z) (v cur' : ts_value) :
  update_current (TSDict n0 d0) v = Ok cur' ->
  cur' = let (n, d) := or_else (stated_signature v) (n0, d0) in TSDict n d.
Proof.
  destruct v as [|s|n d|b]; simpl; try (intros H; inversion H; reflexivity).
  unfold parse_signature.
  destruct (List.length (PyStr.split slash s) =? 2)%nat.
  - destruct (PyStr.py_int (nth 0 (PyStr.split slash s) EmptyString)) as [n|e];
      [|discriminate].
    destruct (PyStr.py_int (nth 1 (PyStr.split slash s) EmptyString)) as [d|e];
      [|discriminate].
    simpl. intros H. inversion H. reflexivity.
  - simpl. intros H. inversion H. reflexivity.
Qed.

Lemma effective_stated (n1 d1 : Z) (v t : ts_value) :
  effective_time_signature v (TSDict n1 d1) = Ok t ->
  t = let (n, d) := or_else (stated_signature v) (n1, d1) in TSDict n d.
Proof.
  destruct v as [|s|n d|b]; simpl; try (intros H; inversion H; reflexivity).
  unfold parse_signature.
  destruct (List.length (PyStr.split slash s) =? 2)%nat.
  - destruct (PyStr.py_int (nth 0 (PyStr.split slash s) EmptyString)) as [n|e];
      [|discriminate].
    destruct (PyStr.py_int (nth 1 (PyStr.split slash s) EmptyString)) as [d|e];
      [|discriminate].
    simpl. intros H. inversion H. reflexivity.
  - simpl. intros H. inversion H. reflexivity.
Qed.

Lemma global_stated (sc : score) (n0 d0 : Z) :
  global_time_signature sc = Ok (TSDict n0 d0) ->
  (n0, d0) = or_else (global_default sc) (4, 4).
Proof.
  unfold global_time_signature, global_default.
  destruct (s_time_signature sc) as [[|s|n d|b]|]; simpl;
    try (intros H; inversion H; reflexivity).
  unfold parse_signature.
  destruct (List.length (PyStr.split slash s) =? 2)%nat.
  - destruct (PyStr.py_int (nth 0 (PyStr.split slash s) EmptyString)) as [n|e];
      [|discriminate].
    destruct (PyStr.py_int (nth 1 (PyStr.split slash s) EmptyString)) as [d|e];
      [|discriminate].
    simpl. intros H. inversion H. reflexivity.
  - simpl. intros H. inversion H. reflexivity.
Qed.


Lemma Fraction_ok_nonzero (n d : Z) (f : Q) : Fraction n d = Ok f -> d <> 0.
Proof. destruct d; [discriminate| |]; intros _; discriminate. Qed.





Example changing_piece_signatures :
  map (resolved_signature changing_piece) [0; 1; 2; 3]%nat
  = [(4, 4); (3, 4); (3, 4); (2, 4)].
Proof. vm_compute. reflexivity. Qed.

(** ** Malformed signature strings *)

Lemma py_int_raises_value_error (s : string) (e : exn) :
  PyStr.py_int s = Raise e -> e = ValueError.
Proof.
  unfold PyStr.py_int, PyStr.int_body.
  set (t := PyStr.rstrip_by PyStr.is_int_space (PyStr.lstrip_by PyStr.is_int_space s)).
  assert (Hbody : forall u e',
             match PyStr.scan_digits false u with
             | Some ds =>
                 if (PyStr.max_str_digits <? List.length ds)%nat
                 then Raise ValueError
                 else Ok (PyStr.digits_value ds)
             | None => Raise ValueError
             end = Raise e' -> e' = ValueError).
  { intros u e'. destruct (PyStr.scan_digits false u) as [ds|].
    - destruct (PyStr.max_str_digits <? List.length ds)%nat; intros H; now inversion H.
    - intros H. now inversion H. }
  destruct t as [|c u]; [apply Hbody|].
  destruct c as [[] [] [] [] [] [] [] []]; try apply Hbody.
  unfold bind.
  destruct (PyStr.scan_digits false u) as [ds|] eqn:E.
  - destruct (PyStr.max_str_digits <? List.length ds)%nat; intros H; now inversion H.
  - intros H. now inversion H.
Qed.

(** Two fields of which one is not an integer: the three places that read a
    signature string raise. *)
Lemma unreadable_fields_raise (s : string) :
  List.length (PyStr.split slash s) = 2%nat ->
  parse_signature s = None ->
  (n <- PyStr.py_int (nth 0 (PyStr.split slash s) EmptyString) ;;
   d <- PyStr.py_int (nth 1 (PyStr.split slash s) EmptyString) ;;
   Ok (TSDict n d)) = Raise ValueError.
Proof.
  intros Hlen. unfold parse_signature. rewrite Hlen. cbn [Nat.eqb].
  destruct (PyStr.py_int (nth 0 (PyStr.split slash s) EmptyString)) as [n|e] eqn:E0.
  - destruct (PyStr.py_int (nth 1 (PyStr.split slash s) EmptyString)) as [d|e] eqn:E1;
      [discriminate|].
    intros _. cbn [bind]. now rewrite (py_int_raises_value_error _ _ E1).
  - intros _. cbn [bind]. now rewrite (py_int_raises_value_error _ _ E0).
Qed.

Lemma not_two_fields (s : string) :
  List.length (PyStr.split slash s) <> 2%nat ->
  (List.length (PyStr.split slash s) =? 2)%nat = false.
Proof. intros H. now apply Nat.eqb_neq. Qed.

(** C3, as stated, fails: a score whose global signature is the malformed
    string ["4"] is validated without any error, as if it were in 4/4. *)
Lemma malformed_signature_silently_defaulted :
  ~ (forall (sc : score) (str : string) (a : aggregate),
        s_time_signature sc = Some (TSStr str) ->
        parse_signature str = None ->
        validate_all_measures sc <> Ok (SuccessReport a)).
Proof.
  intros H.
  set (sc := mkScore (Some (TSStr "4"))
               [mkMeasure (Some (VOther true "1")) TSNone four_quarters four_quarters]).
  assert (Hok : exists a, validate_all_measures sc = Ok (SuccessReport a)
                          /\ agg_time_signature a = "4/4" /\ all_valid a = true).
  { eexists. split; [vm_compute; reflexivity|]. split; reflexivity. }
  destruct Hok as (a & Ha & _).
  exact (H sc "4" a eq_refl eq_refl Ha).
Qed.

(** C3, amended. A signature string that does not split into exactly two
    fields around a slash is replaced silently: as the global signature of a
    score by 4/4; in a measure it leaves the running signature as it is, and
    the measure is validated as one that states no signature (against 4/4 when
    the signature passed in is empty). A string with exactly two fields of
    which one is not an integer raises [ValueError] in each of the three
    places. *)
Theorem malformed_signature_handling (str : string) :
  (List.length (PyStr.split slash str) <> 2%nat ->
   (forall ms : list measure,
       validate_all_measures (mkScore (Some (TSStr str)) ms)
       = validate_all_measures (mkScore (Some (TSDict 4 4)) ms))
   /\ (forall cur : ts_value, update_current cur (TSStr str) = Ok cur)
   /\ (forall (id : option pyval) (rh lh : list event) (cur : ts_value),
          validate_measure (mkMeasure id (TSStr str) rh lh) cur
          = validate_measure (mkMeasure id TSNone rh lh) (ts_or_default cur)))
  /\ (List.length (PyStr.split slash str) = 2%nat ->
      parse_signature str = None ->
      (forall ms : list measure,
          validate_all_measures (mkScore (Some (TSStr str)) ms) = Raise ValueError)
      /\ (forall cur : ts_value, update_current cur (TSStr str) = Raise ValueError)
      /\ (forall (id : option pyval) (rh lh : list event) (cur : ts_value),
             validate_measure (mkMeasure id (TSStr str) rh lh) cur = Raise ValueError)).
Proof.
  split.
  - intros Hlen. apply not_two_fields in Hlen. repeat split.
    + intros ms. unfold validate_all_measures, global_time_signature.
      cbn [s_time_signature]. rewrite Hlen. reflexivity.
    + intros cur. unfold update_current. now rewrite Hlen.
    + intros id rh lh cur. unfold validate_measure.
      cbn [m_time_signature effective_time_signature]. rewrite Hlen.
      unfold ts_or_default.
      destruct cur as [|s|n d|[]]; try reflexivity.
      destruct s; reflexivity.
  - intros Hlen Hnone.
    pose proof (unreadable_fields_raise str Hlen Hnone) as Hraise.
    apply Nat.eqb_eq in Hlen. repeat split.
    + intros ms. unfold validate_all_measures, global_time_signature.
      cbn [s_time_signature]. rewrite Hlen, Hraise. reflexivity.
    + intros cur. unfold update_current. now rewrite Hlen.
    + intros id rh lh cur. unfold validate_measure.
      cbn [m_time_signature effective_time_signature].
      rewrite Hlen, Hraise. reflexivity.
Qed.

Lemma malformed_signature_handling_witness :
  validate_all_measures (mkScore (Some (TSStr "4/4/4")) (s_measures changing_piece))
  = validate_all_measures (mkScore (Some (TSDict 4 4)) (s_measures changing_piece))
  /\ update_current (TSDict 3 4) (TSStr "three-four") = Ok (TSDict 3 4)
  /\ validate_measure (mkMeasure None (TSStr "three/four") three_quarters three_quarters)
       (TSDict 3 4) = Raise ValueError.
Proof.
  split; [|split].
  - apply (proj1 (malformed_signature_handling "4/4/4")). vm_compute. discriminate.
  - apply (proj1 (malformed_signature_handling "three-four")). vm_compute. discriminate.
  - apply (proj2 (malformed_signature_handling "three/four")); reflexivity.
Defined.

(** ** The empty score *)

(** C10, as stated, fails: with the global signature ["x/y"] the score without
    measures makes [int] raise before the measures are looked at. *)
Lemma empty_score_may_raise :
  ~ (forall sc : score,
        s_measures sc = [] ->
        exists msg : string, validate_all_measures sc = Ok (ErrorReport msg)).
Proof.
  intros H. destruct (H (mkScore (Some (TSStr "x/y")) []) eq_refl) as (msg & Hm).
  vm_compute in Hm. discriminate Hm.
Qed.

(** C10, amended. For a score without measures no success report is ever
    returned (no results, counts or summary): the outcome is the error result
    with its message, or [ValueError] when the global signature is a string of
    two fields of which one is not an integer. Whenever the global signature
    is read without an exception, the error result is returned. *)
Theorem empty_score_is_an_error (sc : score) :
  s_measures sc = [] ->
  (forall a : aggregate, validate_all_measures sc <> Ok (SuccessReport a))
  /\ (validate_all_measures sc = Ok (ErrorReport no_measures_message)
      \/ validate_all_measures sc = Raise ValueError)
  /\ (forall ts : ts_value,
         global_time_signature sc = Ok ts ->
         validate_all_measures sc = Ok (ErrorReport no_measures_message))
  /\ ((forall str : string,
          s_time_signature sc = Some (TSStr str) ->
          List.length (PyStr.split slash str) = 2%nat ->
          parse_signature str <> None) ->
      validate_all_measures sc = Ok (ErrorReport no_measures_message)).
Proof.
  intros Hms.
  assert (Hok : forall ts, global_time_signature sc = Ok ts ->
                           validate_all_measures sc = Ok (ErrorReport no_measures_message)).
  { intros ts Hts. unfold validate_all_measures. rewrite Hts, Hms. reflexivity. }
  assert (Hcases : (exists ts, global_time_signature sc = Ok ts)
                   \/ (global_time_signature sc = Raise ValueError
                       /\ exists str, s_time_signature sc = Some (TSStr str)
                                      /\ List.length (PyStr.split slash str) = 2%nat
                                      /\ parse_signature str = None)).
  { unfold global_time_signature.
    destruct (s_time_signature sc) as [[|s|n d|b]|]; try (left; eexists; reflexivity).
    destruct (List.length (PyStr.split slash s) =? 2)%nat eqn:Hlen;
      [|left; eexists; reflexivity].
    apply Nat.eqb_eq in Hlen.
    destruct (parse_signature s) as [[n d]|] eqn:Hp.
    - left. unfold parse_signature in Hp. rewrite Hlen in Hp. cbn [Nat.eqb] in Hp.
      destruct (PyStr.py_int (nth 0 (PyStr.split slash s) EmptyString)); [|discriminate].
      destruct (PyStr.py_int (nth 1 (PyStr.split slash s) EmptyString)); [|discriminate].
      eexists. reflexivity.
    - right. split; [now apply unreadable_fields_raise|].
      exists s. repeat split; assumption. }
  split; [|split; [|split]].
  - intros a. destruct Hcases as [(ts & Hts)|(Hr & _)].
    + rewrite (Hok ts Hts). discriminate.
    + unfold validate_all_measures. rewrite Hr. discriminate.
  - destruct Hcases as [(ts & Hts)|(Hr & _)].
    + left. exact (Hok ts Hts).
    + right. unfold validate_all_measures. now rewrite Hr.
  - exact Hok.
  - intros Hgood. destruct Hcases as [(ts & Hts)|(_ & str & Hs & Hlen & Hp)].
    + exact (Hok ts Hts).
    + exfalso. exact (Hgood str Hs Hlen Hp).
Qed.

Lemma empty_score_is_an_error_witness :
  validate_all_measures (mkScore (Some (TSStr "3/4")) [])
  = Ok (ErrorReport "No measures found in music data")
  /\ validate_all_measures (mkScore None [])
     = Ok (ErrorReport "No measures found in music data").
Proof.
  split.
  - apply (proj1 (proj2 (proj2 (empty_score_is_an_error
                                   (mkScore (Some (TSStr "3/4")) []) eq_refl)))
             (TSDict 3 4)).
    reflexivity.
  - apply (proj2 (proj2 (proj2 (empty_score_is_an_error (mkScore None []) eq_refl)))).
    intros str H. discriminate H.
Defined.

(** * Further properties of the validator *)

(** ** The report of a score *)

(** What a success report was computed from. *)
Lemma validate_all_inv (sc : score) (a : aggregate) :
  validate_all_measures sc = Ok (SuccessReport a) ->
  exists (n0 d0 : Z) (results : list validation_result) (all_ok : bool),
    global_time_signature sc = Ok (TSDict n0 d0)
    /\ s_measures sc <> []
    /\ validate_loop (TSDict n0 d0) [] true (s_measures sc) = Ok (results, all_ok)
    /\ render_ts n0 d0 = Ok (agg_time_signature a)
    /\ total_measures a = List.length (s_measures sc)
    /\ valid_measures a = count_where both_valid results
    /\ invalid_measures a = (List.length results - count_where both_valid results)%nat
    /\ all_valid a = all_ok
    /\ measure_results a = results
    /\ right_hand_valid_count (agg_summary a) = count_where right_hand_valid results
    /\ left_hand_valid_count (agg_summary a) = count_where left_hand_valid results.
Proof.
  unfold validate_all_measures. intros H.
  invert_bind H. rename a0 into ts.
  destruct (s_measures sc) as [|m rest] eqn:Hms; [discriminate|].
  invert_bind H. destruct a0 as [results all_ok].
  invert_bind H. destruct a0 as [n0 d0].
  destruct ts as [|s|n d|b]; try discriminate. simpl in E1. inversion E1; subst n d.
  invert_bind H. inversion H; subst a; clear H.
  cbn [agg_time_signature total_measures valid_measures invalid_measures all_valid
       measure_results agg_summary right_hand_valid_count left_hand_valid_count].
  exists n0, d0, results, all_ok. repeat split; try assumption; try reflexivity.
  discriminate.
Qed.

(** The loop validates the measures one by one, each against some running
    signature, appends the results in order and folds their [both_valid]
    flags. *)
Lemma validate_loop_results (ms : list measure) :
  forall (cur : ts_value) (res : list validation_result) (ok : bool)
         (res' : list validation_result) (ok' : bool),
    validate_loop cur res ok ms = Ok (res', ok') ->
    exists new : list validation_result,
      res' = (res ++ new)%list
      /\ Forall2 (fun m r => exists ts, validate_measure m ts = Ok r) ms new
      /\ ok' = ok && forallb both_valid new.
Proof.
  induction ms as [|m rest IH]; intros cur res ok res' ok' H.
  - simpl in H. inversion H; subst. exists []. rewrite app_nil_r.
    repeat split; [constructor|]. simpl. now rewrite andb_true_r.
  - cbn [validate_loop] in H.
    invert_bind H. rename a into cur'.
    invert_bind H. rename a into r0.
    apply IH in H as (new & Hres & Hall & Hok).
    exists (r0 :: new). split; [|split].
    + rewrite Hres, <- app_assoc. reflexivity.
    + constructor; [now exists cur'|assumption].
    + rewrite Hok. simpl. now rewrite andb_assoc.
Qed.

Lemma count_where_le (p : validation_result -> bool) (rs : list validation_result) :
  (count_where p rs <= List.length rs)%nat.
Proof. unfold count_where. apply filter_length_le. Qed.

Lemma count_where_all (p : validation_result -> bool) (rs : list validation_result) :
  count_where p rs = List.length rs <-> forallb p rs = true.
Proof.
  unfold count_where. induction rs as [|r rs IH]; simpl; [tauto|].
  destruct (p r); simpl.
  - rewrite <- IH. lia.
  - pose proof (filter_length_le p rs). split; [lia|discriminate].
Qed.

(** X1. The counts of a report are consistent: there is one result per
    measure, [total_measures] is their number, and the valid and the invalid
    measures add up to it. *)
Theorem report_counts_add_up (sc : score) (a : aggregate) :
  validate_all_measures sc = Ok (SuccessReport a) ->
  total_measures a = List.length (s_measures sc)
  /\ List.length (measure_results a) = total_measures a
  /\ (valid_measures a + invalid_measures a)%nat = total_measures a
  /\ valid_measures a = List.length (filter both_valid (measure_results a)).
Proof.
  intros H. apply validate_all_inv in H
    as (n0 & d0 & results & all_ok & _ & _ & Hloop & _ & Ht & Hv & Hi & _ & Hr & _).
  apply validate_loop_results in Hloop as (new & Hres & Hall & _).
  simpl in Hres. subst new.
  apply Forall2_length in Hall.
  rewrite Ht, Hv, Hi, Hr. pose proof (count_where_le both_valid results).
  repeat split; try lia; reflexivity.
Qed.

Lemma report_counts_add_up_witness :
  exists a : aggregate,
    validate_all_measures changing_piece = Ok (SuccessReport a)
    /\ total_measures a = 4%nat
    /\ (valid_measures a + invalid_measures a)%nat = total_measures a.
Proof.
  eexists. split; [vm_compute; reflexivity|].
  split; [reflexivity|].
  apply (report_counts_add_up changing_piece). vm_compute. reflexivity.
Defined.

(** X2. [all_valid] says that no measure is invalid: it is true exactly when
    [invalid_measures] is 0, and exactly when every result has [both_valid]. *)
Theorem all_valid_iff_none_invalid (sc : score) (a : aggregate) :
  validate_all_measures sc = Ok (SuccessReport a) ->
  (all_valid a = true <-> invalid_measures a = 0%nat)
  /\ (all_valid a = true <->
      forall r : validation_result, In r (measure_results a) -> both_valid r = true).
Proof.
  intros H. apply validate_all_inv in H
    as (n0 & d0 & results & all_ok & _ & _ & Hloop & _ & _ & _ & Hi & Ha & Hr & _).
  apply validate_loop_results in Hloop as (new & Hres & _ & Hok).
  simpl in Hres. subst new. simpl in Hok.
  rewrite Ha, Hi, Hr, Hok. split.
  - rewrite <- count_where_all. pose proof (count_where_le both_valid results). lia.
  - apply forallb_forall.
Qed.

Lemma all_valid_iff_none_invalid_witness :
  exists a : aggregate,
    validate_all_measures changing_piece = Ok (SuccessReport a)
    /\ (all_valid a = true <-> invalid_measures a = 0%nat).
Proof.
  eexists. split; [vm_compute; reflexivity|].
  apply (all_valid_iff_none_invalid changing_piece). vm_compute. reflexivity.
Defined.

(** The label of a returned result. *)
Lemma validate_measure_more (m : measure) (ts : ts_value) (r : validation_result) :
  validate_measure m ts = Ok r -> measure_id r = measure_label m.
Proof.
  unfold validate_measure. intros H.
  invert_bind H. invert_bind H. destruct a0 as [n d].
  do 9 invert_bind H.
  inversion H; subst r; clear H. reflexivity.
Qed.

Lemma results_of_loop (sc : score) (a : aggregate) :
  validate_all_measures sc = Ok (SuccessReport a) ->
  Forall2 (fun m r => exists ts, validate_measure m ts = Ok r)
    (s_measures sc) (measure_results a).
Proof.
  intros H. apply validate_all_inv in H
    as (n0 & d0 & results & all_ok & _ & _ & Hloop & _ & _ & _ & _ & _ & Hr & _).
  apply validate_loop_results in Hloop as (new & Hres & Hall & _).
  simpl in Hres. subst new. now rewrite Hr.
Qed.

Lemma counts_of_conjunction (rs : list validation_result) :
  Forall (fun r => both_valid r = right_hand_valid r && left_hand_valid r) rs ->
  (count_where both_valid rs <= count_where right_hand_valid rs
   /\ count_where both_valid rs <= count_where left_hand_valid rs
   /\ count_where right_hand_valid rs + count_where left_hand_valid rs
      <= List.length rs + count_where both_valid rs)%nat.
Proof.
  unfold count_where. induction 1 as [|r rs Hr _ IH]; simpl; [lia|].
  rewrite Hr. destruct (right_hand_valid r), (left_hand_valid r); simpl; lia.
Qed.

(** X3. The counts of the summary bound the count of valid measures: a valid
    measure is valid in each hand, so [valid_measures] is at most each of the
    two per-hand counts, and the two per-hand counts together exceed
    [total_measures] by at most [valid_measures]. *)
Theorem summary_counts_bound_valid (sc : score) (a : aggregate) :
  validate_all_measures sc = Ok (SuccessReport a) ->
  (valid_measures a <= right_hand_valid_count (agg_summary a)
   /\ valid_measures a <= left_hand_valid_count (agg_summary a)
   /\ right_hand_valid_count (agg_summary a) <= total_measures a
   /\ left_hand_valid_count (agg_summary a) <= total_measures a
   /\ right_hand_valid_count (agg_summary a) + left_hand_valid_count (agg_summary a)
      <= total_measures a + valid_measures a)%nat.
Proof.
  intros H. pose proof (results_of_loop _ _ H) as Hall.
  apply validate_all_inv in H
    as (n0 & d0 & results & all_ok & _ & _ & _ & _ & Ht & Hv & _ & _ & Hr & Hrc & Hlc).
  rewrite Hr in Hall. pose proof (Forall2_length Hall) as Hlen.
  rewrite Hv, Hrc, Hlc, Ht, Hlen.
  assert (Hconj : Forall (fun r => both_valid r = right_hand_valid r && left_hand_valid r)
                    results).
  { clear - Hall. induction Hall as [|m r ms rs (ts & Hm) _ IH]; constructor; [|exact IH].
    apply validate_measure_inv in Hm.
    destruct Hm as (? & ? & ? & ? & ? & ? & ? & ? & ? & ? & ? & ? & ? & ? & ? & Hb).
    exact Hb. }
  pose proof (counts_of_conjunction results Hconj).
  pose proof (count_where_le right_hand_valid results).
  pose proof (count_where_le left_hand_valid results).
  lia.
Qed.

Lemma summary_counts_bound_valid_witness :
  exists a : aggregate,
    validate_all_measures changing_piece = Ok (SuccessReport a)
    /\ (valid_measures a <= right_hand_valid_count (agg_summary a))%nat.
Proof.
  eexists. split; [vm_compute; reflexivity|].
  apply (summary_counts_bound_valid changing_piece). vm_compute. reflexivity.
Defined.

(** X4. The results come in the order of the measures and each carries the
    [id] of its measure, or ["?"] when the measure has none. *)
Theorem results_keep_measure_ids (sc : score) (a : aggregate) :
  validate_all_measures sc = Ok (SuccessReport a) ->
  map measure_id (measure_results a) = map measure_label (s_measures sc).
Proof.
  intros H. pose proof (results_of_loop _ _ H) as Hall.
  induction Hall as [|m r ms rs (ts & Hm) _ IH]; [reflexivity|].
  simpl. rewrite IH. f_equal.
  now apply validate_measure_more in Hm.
Qed.

Lemma results_keep_measure_ids_witness :
  exists a : aggregate,
    validate_all_measures changing_piece = Ok (SuccessReport a)
    /\ map measure_id (measure_results a)
       = [VOther true "1"; VOther true "2"; VOther true "3"; VOther true "4"].
Proof.
  eexists. split; [vm_compute; reflexivity|].
  apply (results_keep_measure_ids changing_piece). vm_compute. reflexivity.
Defined.

(** X5. The [time_signature] of a report is the global one of the score (or
    4/4 when the score gives none), whatever signatures the measures state. *)
Theorem report_shows_global_signature (sc : score) (a : aggregate) :
  validate_all_measures sc = Ok (SuccessReport a) ->
  (let (n, d) := or_else (global_default sc) (4, 4) in render_ts n d)
  = Ok (agg_time_signature a).
Proof.
  intros H. apply validate_all_inv in H
    as (n0 & d0 & results & all_ok & Hg & _ & _ & Ht & _).
  rewrite <- (global_stated _ _ _ Hg). exact Ht.
Qed.

Lemma report_shows_global_signature_witness :
  exists a : aggregate,
    validate_all_measures changing_piece = Ok (SuccessReport a)
    /\ render_ts 4 4 = Ok (agg_time_signature a).
Proof.
  eexists. split; [vm_compute; reflexivity|].
  apply (report_shows_global_signature changing_piece). vm_compute. reflexivity.
Defined.

(** ** What every parsed duration is *)

Module DurationFacts.

Import PyStr PyStrFacts Parser.

Lemma regular_zero : regular_duration (0 # 1)%Q.
Proof. split; [apply Qle_refl|]. exists 0. reflexivity. Qed.

Lemma whole_eighths_add (a b : Q) :
  whole_eighths a -> whole_eighths b -> whole_eighths (frac_add a b).
Proof.
  intros (ka & Ha) (kb & Hb). exists (ka + kb). unfold frac_add.
  rewrite Qred_correct, Ha, Hb. unfold Qeq, Qplus. simpl. lia.
Qed.

Lemma whole_eighths_mul (n : Z) (b : Q) :
  whole_eighths b -> whole_eighths (frac_mul (frac_of_int n) b).
Proof.
  intros (kb & Hb). exists (n * kb). unfold frac_mul, frac_of_int.
  rewrite Qred_correct, Hb. unfold Qeq, Qmult. simpl. lia.
Qed.

Lemma regular_add (a b : Q) : regular_duration a -> regular_duration b -> regular_duration (frac_add a b).
Proof.
  intros (Ha & Ea) (Hb & Eb). split; [|now apply whole_eighths_add].
  unfold frac_add. rewrite Qred_correct. lra.
Qed.

Lemma regular_mul (n : Z) (b : Q) :
  0 <= n -> regular_duration b -> regular_duration (frac_mul (frac_of_int n) b).
Proof.
  intros Hn (Hb & Eb). split; [|now apply whole_eighths_mul].
  unfold frac_mul, frac_of_int. rewrite Qred_correct.
  apply Qmult_le_0_compat; [|exact Hb]. unfold Qle. simpl. lia.
Qed.

Lemma dict_get_Forall {V : Type} (P : V -> Prop) (d : list (string * V))
  (key : string) (default : V) :
  Forall (fun kv => P (snd kv)) d -> P default -> P (dict_get d key default).
Proof.
  intros Hd Hdef. induction Hd as [|[k v] r Hv _ IH]; simpl; [exact Hdef|].
  now destruct (String.eqb k key).
Qed.

Lemma dict_find_Forall {V : Type} (P : V -> Prop) (d : list (string * V))
  (key : string) (v : V) :
  Forall (fun kv => P (snd kv)) d -> dict_find d key = Some v -> P v.
Proof.
  intros Hd. induction Hd as [|[k v'] r Hv _ IH]; simpl; [discriminate|].
  destruct (String.eqb k key); [|exact IH].
  intros H. inversion H; subst. exact Hv.
Qed.

Lemma table_regular (key : string) :
  regular_duration (dict_get DURATION_VALUES key (0 # 1)%Q).
Proof.
  apply dict_get_Forall; [|exact regular_zero].
  unfold DURATION_VALUES.
  repeat (constructor;
          [cbn [snd]; split;
           [vm_compute; discriminate|
            match goal with
            | |- whole_eighths ?v =>
                exists (Qnum v * 8 / Z.pos (Qden v)); vm_compute; reflexivity
            end]|]).
  constructor.
Qed.

Lemma number_words_positive (w : string) (n : Z) :
  dict_find number_words w = Some n -> 0 <= n.
Proof.
  apply (dict_find_Forall (fun n => 0 <= n)).
  unfold number_words. repeat (constructor; [simpl; lia|]). constructor.
Qed.

Lemma parse_words_regular (d : string) :
  exists q, parse_words d = Ok q /\ regular_duration q.
Proof.
  unfold parse_words.
  destruct (split_ws d) as [|w0 [|w1 rest]];
    try (eexists; split; [reflexivity|apply table_regular]).
  destruct (dict_find number_words w0) as [n|] eqn:E.
  - eexists; split; [reflexivity|].
    apply regular_mul; [now apply number_words_positive in E|apply table_regular].
  - eexists; split; [reflexivity|apply table_regular].
Qed.

Lemma parse_product_eighths (d : string) (q : Q) :
  parse_product d = Ok q -> whole_eighths q.
Proof.
  unfold parse_product. intros H. invert_bind H. inversion H; subst q.
  apply whole_eighths_mul, table_regular.
Qed.

Lemma sum_results_Forall (P : Q -> Prop) (rs : list (result Q)) :
  (forall a b, P a -> P b -> P (frac_add a b)) ->
  Forall (fun r => forall q, r = Ok q -> P q) rs ->
  forall total q, P total -> sum_results total rs = Ok q -> P q.
Proof.
  intros Hadd Hall. induction Hall as [|r rs Hr _ IH]; intros total q Ht H.
  - simpl in H. now inversion H; subst.
  - simpl in H. invert_bind H. apply (IH (frac_add total a)); [|exact H].
    apply Hadd; [exact Ht|now apply Hr].
Qed.

Lemma parse_body_eighths (self : string -> result Q) (ne : bool) (text : string) (q : Q) :
  (forall s q', self s = Ok q' -> whole_eighths q') ->
  parse_body self ne text = Ok q -> whole_eighths q.
Proof.
  intros Hself. unfold parse_body.
  destruct (negb ne); [intros H; inversion H; apply regular_zero|].
  destruct (is_empty (lower (strip text))); [intros H; inversion H; apply regular_zero|].
  destruct (contains comma (lower (strip text))).
  - apply (sum_results_Forall whole_eighths);
      [exact whole_eighths_add| |apply regular_zero].
    apply Forall_forall. intros r Hin q' Hr.
    apply in_map_iff in Hin as (part & Hp & _). subst r. now apply Hself in Hr.
  - destruct (contains star (lower (strip text))).
    + apply parse_product_eighths.
    + intros H. destruct (parse_words_regular (lower (strip text))) as (q' & Hq & _ & He).
      rewrite Hq in H. now inversion H; subst.
Qed.

Lemma parse_text_eighths (s : string) (q : Q) :
  parse_text s = Ok q -> whole_eighths q.
Proof.
  unfold parse_text. apply parse_body_eighths.
  intros s' q'. unfold parse_text_leaf. apply parse_body_eighths.
  intros _ q'' H. inversion H. apply regular_zero.
Qed.

Lemma parse_duration_eighths (v : pyval) :
  forall q, parse_duration v = Ok q -> whole_eighths q.
Proof.
  induction v as [|s|l IH|b r] using pyval_induction; intros q H.
  - inversion H. apply regular_zero.
  - revert H. apply parse_body_eighths, parse_text_eighths.
  - induction IH as [|x t Hx _ IHt].
    + inversion H. apply regular_zero.
    + destruct t as [|y t']; [now apply Hx|]. now apply IHt.
  - revert H. apply parse_body_eighths, parse_text_eighths.
Qed.

(** Without an asterisk the body neither raises nor goes below zero. *)
Lemma parse_body_star_free (self : string -> result Q) (ne : bool) (text : string) :
  (forall s, contains star s = false -> exists q, self (strip s) = Ok q /\ regular_duration q) ->
  contains star text = false ->
  exists q, parse_body self ne text = Ok q /\ regular_duration q.
Proof.
  intros Hself Hstar. unfold parse_body.
  destruct (negb ne); [eexists; split; [reflexivity|apply regular_zero]|].
  destruct (is_empty (lower (strip text)));
    [eexists; split; [reflexivity|apply regular_zero]|].
  assert (Hs : contains star (lower (strip text)) = false).
  { rewrite LookupFacts.contains_lower_star. now apply contains_strip. }
  rewrite Hs.
  destruct (contains comma (lower (strip text))); [|apply parse_words_regular].
  assert (Hparts : Forall (fun p => contains star p = false)
                     (split comma (lower (strip text)))).
  { clear - Hs. revert Hs. generalize (lower (strip text)) as d.
    induction d as [|c t IH]; simpl; intros H; [now repeat constructor|].
    apply orb_false_iff in H as [Hc Ht]. specialize (IH Ht).
    destruct (Ascii.eqb c comma); [now constructor|].
    destruct (split comma t) as [|h r]; [repeat constructor; simpl; now rewrite Hc|].
    inversion IH; subst. constructor; [|assumption]. simpl. now rewrite Hc. }
  generalize (regular_zero). generalize (0 # 1)%Q as total.
  induction Hparts as [|p ps Hp _ IH]; intros total Ht; simpl.
  - now exists total.
  - destruct (Hself p Hp) as (q & Hq & Hr). rewrite Hq. cbn [bind].
    apply IH. now apply regular_add.
Qed.

Lemma parse_text_star_free (s : string) :
  contains star s = false -> exists q, parse_text s = Ok q /\ regular_duration q.
Proof.
  intros H. unfold parse_text. apply parse_body_star_free; [|exact H].
  intros p Hp. unfold parse_text_leaf. apply parse_body_star_free.
  - intros. eexists. split; [reflexivity|apply regular_zero].
  - now apply contains_strip.
Qed.

End DurationFacts.

(** X6. A duration string without an asterisk always parses, to a duration
    that is not negative: the parser raises only in the form
    [<int> * <token>]. *)
Theorem parse_without_asterisk_succeeds (s : string) :
  PyStr.contains Parser.star s = false ->
  exists q : Q, parse_duration (VStr s) = Ok q /\ (0 <= q)%Q.
Proof.
  intros H. rewrite parse_duration_str.
  destruct (DurationFacts.parse_text_star_free s H) as (q & Hq & Hpos & _).
  now exists q.
Qed.

Lemma parse_without_asterisk_succeeds_witness :
  exists q : Q, parse_duration (VStr "half, three eigths, no such name") = Ok q /\ (0 <= q)%Q.
Proof. apply parse_without_asterisk_succeeds. reflexivity. Defined.

(** X7. Whatever the parser returns, for any value (string, list, nested list
    or other), is a whole number of thirty-second notes: an integer multiple
    of 1/8 beat. *)
Theorem parsed_duration_is_whole_eighths (v : pyval) (q : Q) :
  parse_duration v = Ok q -> whole_eighths q.
Proof. apply DurationFacts.parse_duration_eighths. Qed.

Lemma parsed_duration_is_whole_eighths_witness :
  whole_eighths (9 # 8)%Q.
Proof.
  apply (parsed_duration_is_whole_eighths
           (VList [VStr "half"; VList [VStr "3 * dotted sixteenth"]])).
  vm_compute. reflexivity.
Defined.

(** ** Valid measures *)

Lemma add_durations_eighths (events : list event) :
  forall total T : Q,
    whole_eighths total -> add_durations total events = Ok T -> whole_eighths T.
Proof.
  induction events as [|e rest IH]; intros total T Ht H.
  - simpl in H. now inversion H; subst.
  - simpl in H. invert_bind H. apply (IH _ _ (DurationFacts.whole_eighths_add _ _ Ht
      (DurationFacts.parse_duration_eighths _ _ E)) H).
Qed.

Lemma calculate_eighths (events : list event) (ts : ts_value) (lh : bool) (T : Q) :
  calculate_measure_duration_events events ts lh = Ok T -> whole_eighths T.
Proof.
  destruct events as [|e rest]; unfold calculate_measure_duration_events.
  - intros H. inversion H. exists 0. reflexivity.
  - apply add_durations_eighths. exists 0. reflexivity.
Qed.

Lemma calculate_reduced (events : list event) (ts : ts_value) (lh : bool) (T : Q) :
  calculate_measure_duration_events events ts lh = Ok T -> Qred T = T.
Proof.
  rewrite calculate_as_sum. intros H. invert_bind H. inversion H.
  apply Qred_complete, Qred_correct.
Qed.

Lemma close_eighths_equal (a b e : Q) :
  whole_eighths a -> whole_eighths b ->
  (Qabs (a - e) <= 1 # 1000)%Q -> (Qabs (b - e) <= 1 # 1000)%Q -> (a == b)%Q.
Proof.
  intros (ka & Ha) (kb & Hb) Hae Hbe.
  apply Qabs_Qle_condition in Hae as [Hae1 Hae2].
  apply Qabs_Qle_condition in Hbe as [Hbe1 Hbe2].
  assert (H1 : (a - b <= 2 # 1000)%Q) by lra.
  assert (H2 : (b - a <= 2 # 1000)%Q) by lra.
  rewrite Ha, Hb in H1, H2. rewrite Ha, Hb.
  unfold Qle, Qminus, Qplus, Qopp in H1, H2. simpl in H1, H2.
  unfold Qeq. simpl. lia.
Qed.

(** X8. In a valid measure the two hands last exactly the same: every parsed
    duration is a multiple of 1/8 beat, so two totals within 1/1000 of the
    same expected duration are equal, as exact totals and so as the floats of
    the result. *)
Theorem valid_measure_has_equal_hands (m : measure) (ts : ts_value) (r : validation_result) :
  validate_measure m ts = Ok r ->
  both_valid r = true ->
  right_hand_duration r = left_hand_duration r
  /\ exists T : Q,
       calculate_measure_duration_events (m_right_hand m) ts false = Ok T
       /\ calculate_measure_duration_events (m_left_hand m) ts true = Ok T.
Proof.
  intros H Hb. apply validate_measure_inv in H
    as (n & d & f & rh & lh & _ & _ & Hr & Hl & _ & _ & Hrd & Hld & Hrv & Hlv & Hboth).
  rewrite Hboth in Hb. apply andb_true_iff in Hb as [Hbr Hbl].
  rewrite Hrv in Hbr. rewrite Hlv in Hbl.
  apply Qle_bool_iff in Hbr, Hbl.
  unfold frac_abs, frac_sub, tolerance in Hbr, Hbl.
  rewrite Qred_correct in Hbr, Hbl.
  assert (Heq : rh = lh).
  { rewrite <- (calculate_reduced _ _ _ _ Hr), <- (calculate_reduced _ _ _ _ Hl).
    apply Qred_complete.
    exact (close_eighths_equal rh lh _ (calculate_eighths _ _ _ _ Hr)
             (calculate_eighths _ _ _ _ Hl) Hbr Hbl). }
  subst lh. split; [now rewrite Hrd, Hld|].
  exists rh. split; [exact Hr|exact Hl].
Qed.

Lemma valid_measure_has_equal_hands_witness :
  exists r : validation_result,
    validate_measure (mkMeasure None (TSStr "3/4") three_quarters three_quarters) TSNone = Ok r
    /\ right_hand_duration r = left_hand_duration r.
Proof.
  eexists. split; [vm_compute; reflexivity|].
  apply (valid_measure_has_equal_hands
           (mkMeasure None (TSStr "3/4") three_quarters three_quarters) TSNone);
    vm_compute; reflexivity.
Defined.

(** ** The comma form *)

Module CommaFacts.

Import PyStr PyStrFacts ConcatFacts LookupFacts Parser.

Lemma strip_idempotent (s : string) : strip (strip s) = strip s.
Proof. unfold strip at 2. now rewrite strip_rstrip, strip_lstrip. Qed.

Lemma norm_strip (s : string) : lower (strip (strip s)) = lower (strip s).
Proof. now rewrite strip_idempotent. Qed.

Lemma norm_lower (s : string) : lower (strip (lower s)) = lower (strip s).
Proof. now rewrite <- lower_strip, lower_idempotent. Qed.

Lemma norm_lstrip (s : string) : lower (strip (lstrip_by is_space s)) = lower (strip s).
Proof. now rewrite strip_lstrip. Qed.

Lemma norm_rstrip (s : string) : lower (strip (rstrip_by is_space s)) = lower (strip s).
Proof. now rewrite strip_rstrip. Qed.

Lemma same_part_refl (ps : list string) :
  Forall (fun p => contains comma p = false) ps -> Forall2 same_part ps ps.
Proof. induction 1; constructor; [now split|assumption]. Qed.

Lemma str_join_cons (sep : ascii) (p q : string) (ps : list string) :
  str_join sep (p :: q :: ps) = p ++ String sep (str_join sep (q :: ps)).
Proof. reflexivity. Qed.

Lemma rstrip_join (ps : list string) :
  Forall (fun p => contains comma p = false) ps ->
  exists ps', rstrip_by is_space (str_join comma ps) = str_join comma ps'
              /\ Forall2 same_part ps ps'.
Proof.
  induction 1 as [|p ps Hp Hps IH].
  - exists []. split; [reflexivity|constructor].
  - destruct ps as [|q ps].
    + exists [rstrip_by is_space p]. split; [reflexivity|].
      constructor; [|constructor]. split; [apply norm_rstrip|now apply contains_rstrip].
    + destruct IH as (ps' & Hj & Hall).
      destruct ps' as [|q' ps'']; [inversion Hall|].
      exists (p :: q' :: ps''). split.
      * rewrite !str_join_cons, (rstrip_app_stop is_space p comma _ eq_refl).
        rewrite Hj. reflexivity.
      * constructor; [now split|exact Hall].
Qed.

Lemma strip_join (p q : string) (ps : list string) :
  Forall (fun p => contains comma p = false) (p :: q :: ps) ->
  exists ps', strip (str_join comma (p :: q :: ps)) = str_join comma ps'
              /\ Forall2 same_part (p :: q :: ps) ps'.
Proof.
  intros Hall. inversion Hall as [|? ? Hp Hrest]; subst.
  assert (Hall' : Forall (fun p => contains comma p = false)
                    (lstrip_by is_space p :: q :: ps)).
  { constructor; [now apply contains_lstrip|assumption]. }
  destruct (rstrip_join _ Hall') as (ps' & Hj & Hrel).
  exists ps'. split.
  - unfold strip. rewrite str_join_cons, (lstrip_app_stop is_space p comma _ eq_refl).
    rewrite <- str_join_cons. exact Hj.
  - inversion Hrel as [|? p' ? ps'' (Hn & Hc) Hrel']; subst.
    constructor; [|exact Hrel'].
    split; [now rewrite Hn, norm_lstrip|exact Hc].
Qed.

Lemma lower_join (ps : list string) :
  lower (str_join comma ps) = str_join comma (map lower ps).
Proof.
  induction ps as [|p ps IH]; [reflexivity|].
  destruct ps as [|q ps]; [reflexivity|].
  change (map lower (p :: q :: ps)) with (lower p :: map lower (q :: ps)).
  cbn [map] in IH |- *. rewrite !str_join_cons, lower_app. cbn [lower].
  change (lower_char comma) with comma. cbn [map] in IH. now rewrite IH.
Qed.

Lemma split_join (ps : list string) :
  ps <> [] ->
  Forall (fun p => contains comma p = false) ps ->
  split comma (str_join comma ps) = ps.
Proof.
  intros Hne Hall. induction Hall as [|p ps Hp Hps IH]; [contradiction|].
  destruct ps as [|q ps]; [now apply split_free|].
  rewrite str_join_cons, (split_app comma p _ Hp), IH; [reflexivity|discriminate].
Qed.

Lemma join_two_nonempty (a b : string) (l : list string) :
  is_empty (str_join comma (a :: b :: l)) = false.
Proof. rewrite str_join_cons. apply is_empty_app_cons. Qed.

Lemma join_two_has_comma (a b : string) (l : list string) :
  contains comma (str_join comma (a :: b :: l)) = true.
Proof.
  rewrite str_join_cons, contains_app. cbn [contains].
  unfold comma. rewrite Ascii.eqb_refl. now rewrite orb_true_r.
Qed.

Lemma map_same_part (l l' : list string) :
  Forall2 same_part l l' ->
  map (fun part => parse_text (strip part)) (map lower l')
  = map (fun part => parse_duration (VStr part)) l.
Proof.
  induction 1 as [|a b l l' (Hn & _) _ IH]; [reflexivity|].
  cbn [map]. rewrite IH. f_equal.
  rewrite <- parse_duration_str. apply parse_duration_normalized.
  now rewrite norm_strip, norm_lower.
Qed.

(** A comma-joined string of two parts or more parses to the sum of the
    parses of the parts. *)
Lemma parse_duration_join (p q : string) (ps : list string) :
  Forall (fun p => contains comma p = false) (p :: q :: ps) ->
  parse_duration (VStr (str_join comma (p :: q :: ps)))
  = sum_results (0 # 1)%Q (map (fun part => parse_duration (VStr part)) (p :: q :: ps)).
Proof.
  intros Hall.
  destruct (strip_join p q ps Hall) as (ps' & Hstrip & Hrel).
  rewrite parse_duration_str, ParserFacts.parse_text_unfold. unfold parse_body.
  rewrite str_join_cons, is_empty_app_cons. cbn [negb].
  rewrite <- str_join_cons, Hstrip, lower_join.
  assert (Hfree : Forall (fun x => contains comma x = false) (map lower ps')).
  { clear - Hrel. induction Hrel as [|a b l l' (_ & Hc) _ IH]; constructor; [|exact IH].
    unfold comma. now rewrite contains_lower_comma. }
  rewrite <- (map_same_part _ _ Hrel).
  inversion Hrel as [|? p' ? ps1 Hp' Hrel1]; subst.
  inversion Hrel1 as [|? q' ? ps2 Hq' Hrel2]; subst.
  cbn [map] in Hfree |- *.
  rewrite (join_two_nonempty (lower p') (lower q') (map lower ps2)).
  rewrite (join_two_has_comma (lower p') (lower q') (map lower ps2)).
  rewrite split_join by (assumption || discriminate).
  reflexivity.
Qed.

End CommaFacts.

(** X9. The comma form adds: a string of two or more parts joined by commas,
    no part holding a comma itself, parses to the sum of the parses of its
    parts, taken from left to right (the first part that raises ends it). *)
Theorem comma_form_adds (p q : string) (ps : list string) :
  Forall (fun part => PyStr.contains Parser.comma part = false) (p :: q :: ps) ->
  parse_duration (VStr (str_join Parser.comma (p :: q :: ps)))
  = sum_results (0 # 1)%Q (map (fun part => parse_duration (VStr part)) (p :: q :: ps)).
Proof. apply CommaFacts.parse_duration_join. Qed.

Lemma comma_form_adds_witness :
  parse_duration (VStr (str_join Parser.comma ["half"; " Sixteenth "; "2 * eighth"]))
  = sum_results (0 # 1)%Q
      (map (fun part => parse_duration (VStr part)) ["half"; " Sixteenth "; "2 * eighth"]).
Proof. apply comma_form_adds. repeat constructor. Defined.

(** X10. The parser reads a string up to case and surrounding white space:
    two strings with the same stripped, lower-case text parse alike. *)
Theorem parse_ignores_case_and_padding (s1 s2 : string) :
  PyStr.lower (PyStr.strip s1) = PyStr.lower (PyStr.strip s2) ->
  parse_duration (VStr s1) = parse_duration (VStr s2).
Proof. apply LookupFacts.parse_duration_normalized. Qed.

Lemma parse_ignores_case_and_padding_witness :
  parse_duration (VStr "  Dotted QUARTER ") = parse_duration (VStr "dotted quarter").
Proof. apply parse_ignores_case_and_padding. reflexivity. Defined.

(** ** The signature argument of [validate_measure] *)

Lemma effective_of_explicit (v ts : ts_value) (sig : Z * Z) :
  stated_signature v = Some sig ->
  effective_time_signature v ts = Ok (ts_of sig).
Proof.
  destruct v as [|s|n d|b]; simpl; try discriminate.
  - unfold parse_signature.
    destruct (List.length (PyStr.split slash s) =? 2)%nat; [|discriminate].
    destruct (PyStr.py_int (nth 0 (PyStr.split slash s) EmptyString)) as [n|e];
      [|discriminate].
    destruct (PyStr.py_int (nth 1 (PyStr.split slash s) EmptyString)) as [d|e];
      [|discriminate].
    intros H. inversion H. reflexivity.
  - intros H. inversion H. reflexivity.
Qed.

(** X11. A signature that the measure states itself (a pair, or a string that
    reads as N/D) takes precedence: the result does not depend on the
    signature passed in, and is the result of the same measure without
    signature validated against the stated one. When the measure states none,
    passing no signature is passing 4/4. *)
Theorem own_signature_takes_precedence (m : measure) :
  (forall (sig : Z * Z) (ts : ts_value),
      explicit_signature m = Some sig ->
      validate_measure m ts
      = validate_measure
          (mkMeasure (m_id m) TSNone (m_right_hand m) (m_left_hand m)) (ts_of sig))
  /\ validate_measure m TSNone = validate_measure m (TSDict 4 4).
Proof.
  split.
  - intros [n d] ts H. unfold validate_measure.
    rewrite (effective_of_explicit _ ts _ H). reflexivity.
  - unfold validate_measure.
    destruct (m_time_signature m) as [|s|n d|b]; reflexivity.
Qed.

Lemma own_signature_takes_precedence_witness :
  validate_measure (mkMeasure None (TSStr "3/4") three_quarters three_quarters) (TSDict 4 4)
  = validate_measure (mkMeasure None TSNone three_quarters three_quarters) (TSDict 3 4).
Proof.
  apply (proj1 (own_signature_takes_precedence
                  (mkMeasure None (TSStr "3/4") three_quarters three_quarters))
           (3, 4) (TSDict 4 4)).
  reflexivity.
Defined.

(** ** The two hands *)

Lemma parse_text_raises_value_error (s : string) (e : exn) :
  Parser.parse_text s = Raise e -> e = ValueError.
Proof.
  assert (Hsum : forall rs total e',
             Forall (fun r => forall x, r = Raise x -> x = ValueError) rs ->
             sum_results total rs = Raise e' -> e' = ValueError).
  { intros rs. induction rs as [|r rs IH]; intros total e' Hall H; [discriminate|].
    inversion Hall as [|? ? Hr Hrs]; subst. simpl in H.
    destruct r as [d|x]; [exact (IH _ _ Hrs H)|].
    simpl in H. inversion H; subst. now apply Hr. }
  assert (Hbody : forall self ne text e',
             (forall p x, self p = Raise x -> x = ValueError) ->
             Parser.parse_body self ne text = Raise e' -> e' = ValueError).
  { intros self ne text e' Hself. unfold Parser.parse_body.
    destruct (negb ne); [discriminate|].
    destruct (PyStr.is_empty _); [discriminate|].
    destruct (PyStr.contains Parser.comma _).
    - apply Hsum. apply Forall_forall. intros r Hin x Hx.
      apply in_map_iff in Hin as (part & Hp & _). subst r. now apply Hself in Hx.
    - destruct (PyStr.contains Parser.star _).
      + unfold Parser.parse_product.
        destruct (PyStr.py_int _) as [k|x] eqn:E; [discriminate|].
        simpl. intros H. inversion H; subst.
        now apply py_int_raises_value_error in E.
      + unfold Parser.parse_words.
        destruct (PyStr.split_ws _) as [|w0 [|w1 rest]]; try discriminate.
        destruct (dict_find number_words w0); discriminate. }
  unfold Parser.parse_text. apply Hbody.
  intros p x. unfold Parser.parse_text_leaf. apply Hbody. discriminate.
Qed.

Lemma parse_duration_raises_value_error (v : pyval) :
  forall e, parse_duration v = Raise e -> e = ValueError.
Proof.
  assert (Hbody : forall ne text e,
             Parser.parse_body Parser.parse_text ne text = Raise e -> e = ValueError).
  { intros ne text e H.
    destruct ne.
    - destruct (PyStr.is_empty text) eqn:Et.
      + apply PyStrFacts.is_empty_true in Et. subst text. discriminate H.
      + apply (parse_text_raises_value_error text).
        rewrite ParserFacts.parse_text_unfold, Et. exact H.
    - discriminate H. }
  induction v as [|s|l IH|b r] using pyval_induction; intros e H.
  - discriminate H.
  - exact (Hbody _ _ _ H).
  - induction IH as [|x t Hx _ IHt]; [discriminate H|].
    destruct t as [|y t']; [now apply Hx|]. now apply IHt.
  - exact (Hbody _ _ _ H).
Qed.

Lemma calculate_raises_value_error (events : list event) (ts : ts_value) (lh : bool) (e : exn) :
  calculate_measure_duration_events events ts lh = Raise e -> e = ValueError.
Proof.
  rewrite calculate_as_sum.
  assert (H : forall x, parse_all events = Raise x -> x = ValueError).
  { induction events as [|ev rest IH]; intros x Hx; [discriminate|].
    simpl in Hx.
    destruct (parse_duration (duration_input_of ev)) as [d|y] eqn:E.
    - simpl in Hx. destruct (parse_all rest) as [ds|y]; [discriminate|].
      simpl in Hx. inversion Hx; subst. now apply IH.
    - simpl in Hx. inversion Hx; subst.
      now apply parse_duration_raises_value_error in E. }
  destruct (parse_all events) as [ds|x]; [discriminate|].
  simpl. intros Hx. inversion Hx; subst. now apply H.
Qed.

Lemma calculate_ignores_flags (events : list event) (ts ts' : ts_value) (lh lh' : bool) :
  calculate_measure_duration_events events ts lh
  = calculate_measure_duration_events events ts' lh'.
Proof. reflexivity. Qed.

(** X12. The two hands are treated alike: exchanging the hands of a measure
    exchanges the per-hand fields of its result and changes nothing else (the
    same exception when it raises). The left hand has no rule of its own. *)
Theorem hands_are_treated_alike (m : measure) (ts : ts_value) :
  validate_measure (swap_hands m) ts
  = (r <- validate_measure m ts ;; Ok (swap_result r)).
Proof.
  unfold validate_measure. cbn [swap_hands m_time_signature m_right_hand m_left_hand m_id].
  destruct (effective_time_signature (m_time_signature m) ts) as [ts'|e];
    [|reflexivity].
  cbn [bind]. destruct (ts_fields ts') as [[n d]|e]; [|reflexivity].
  cbn [bind]. destruct (Fraction n d) as [f|e]; [|reflexivity].
  cbn [bind].
  rewrite (calculate_ignores_flags (m_left_hand m) ts' ts' false true).
  rewrite (calculate_ignores_flags (m_right_hand m) ts' ts' true false).
  destruct (calculate_measure_duration_events (m_right_hand m) ts' false)
    as [rh|er] eqn:Er;
    destruct (calculate_measure_duration_events (m_left_hand m) ts' true)
      as [lh|el] eqn:El; cbn [bind];
    try (apply calculate_raises_value_error in Er);
    try (apply calculate_raises_value_error in El); subst; try reflexivity.
  unfold py_float.
  destruct (Qle_bool float_overflow_bound (Qabs (frac_abs (frac_sub rh _))));
    destruct (Qle_bool float_overflow_bound (Qabs (frac_abs (frac_sub lh _))));
    cbn [bind]; try reflexivity.
  destruct (render_ts n d) as [ts_str|e]; cbn [bind]; [|reflexivity].
  destruct (Qle_bool float_overflow_bound (Qabs (frac_mul f _)));
    destruct (Qle_bool float_overflow_bound (Qabs rh));
    destruct (Qle_bool float_overflow_bound (Qabs lh));
    cbn [bind]; try reflexivity.
  unfold swap_result.
  cbn [measure_id time_signature expected_duration right_hand_duration
       left_hand_duration right_hand_valid left_hand_valid both_valid
       right_hand_error left_hand_error].
  now rewrite andb_comm.
Qed.

(** ** Pitches *)

Lemma calculate_renote (f : event -> list string) (events : list event)
  (ts : ts_value) (lh : bool) :
  calculate_measure_duration_events (renote_events f events) ts lh
  = calculate_measure_duration_events events ts lh.
Proof.
  unfold renote_events. rewrite !calculate_as_sum, parse_all_notes. reflexivity.
Qed.

Lemma validate_measure_renote (f : event -> list string) (m : measure) (ts : ts_value) :
  validate_measure (renote_measure f m) ts = validate_measure m ts.
Proof.
  unfold validate_measure.
  cbn [renote_measure m_time_signature m_right_hand m_left_hand m_id].
  destruct (effective_time_signature (m_time_signature m) ts) as [ts'|e];
    [|reflexivity].
  cbn [bind]. now rewrite !calculate_renote.
Qed.

Lemma validate_loop_renote (f : event -> list string) (ms : list measure) :
  forall (cur : ts_value) (res : list validation_result) (ok : bool),
    validate_loop cur res ok (map (renote_measure f) ms) = validate_loop cur res ok ms.
Proof.
  induction ms as [|m rest IH]; intros cur res ok; [reflexivity|].
  cbn [map validate_loop]. cbn [renote_measure m_time_signature].
  destruct (update_current cur (m_time_signature m)) as [cur'|e]; [|reflexivity].
  cbn [bind]. change (mkMeasure (m_id m) (m_time_signature m)
                        (renote_events f (m_right_hand m))
                        (renote_events f (m_left_hand m)))
                with (renote_measure f m).
  rewrite validate_measure_renote.
  destruct (validate_measure m cur') as [r|e]; [|reflexivity].
  cbn [bind]. apply IH.
Qed.

(** X13. Validation never looks at pitches: a score in which the notes of
    every event are replaced by anything else (more pitches, fewer, none) gets
    the same outcome, report or exception. *)
Theorem validation_ignores_pitches (f : event -> list string) (sc : score) :
  validate_all_measures (renote_score f sc) = validate_all_measures sc.
Proof.
  unfold validate_all_measures.
  change (global_time_signature (renote_score f sc)) with (global_time_signature sc).
  destruct (global_time_signature sc) as [ts|e]; [|reflexivity].
  cbn [bind renote_score s_measures].
  destruct (s_measures sc) as [|m rest] eqn:Hms; [reflexivity|].
  rewrite <- Hms, validate_loop_renote.
  rewrite Hms at 1. cbn [map]. rewrite length_map. reflexivity.
Qed.

(** ** Measures one by one *)

(** The loop from a running signature is the validation of each measure
    against the signature resolved for it. *)
Lemma validate_loop_each (sc : score) (ms : list measure) :
  forall (i : nat) (n0 d0 : Z) (res : list validation_result) (ok : bool),
    (forall j, or_else (nearest_explicit ms j) (n0, d0) = resolved_signature sc (i + j)) ->
    validate_loop (TSDict n0 d0) res ok ms
    = (rs <- validate_each sc i ms ;;
       Ok ((res ++ rs)%list, ok && forallb both_valid rs)).
Proof.
  induction ms as [|m rest IH]; intros i n0 d0 res ok Hres.
  - simpl. now rewrite app_nil_r, andb_true_r.
  - cbn [validate_loop validate_each].
    pose proof (Hres 0%nat) as H0. rewrite Nat.add_0_r in H0.
    cbn [nearest_explicit nth_error] in H0.
    assert (Hsig : or_else (explicit_signature m) (n0, d0) = resolved_signature sc i).
    { rewrite <- H0. now destruct (explicit_signature m). }
    destruct (resolved_signature sc i) as [n1 d1] eqn:Hr.
    destruct (update_current (TSDict n0 d0) (m_time_signature m)) as [cur'|e] eqn:Eu.
    + apply update_current_stated in Eu. fold (explicit_signature m) in Eu.
      rewrite Hsig in Eu. subst cur'. cbn [bind ts_of].
      destruct (validate_measure m (TSDict n1 d1)) as [r|e]; [|reflexivity].
      cbn [bind]. rewrite (IH (S i) n1 d1).
      * destruct (validate_each sc (S i) rest) as [rs|e]; [|reflexivity].
        cbn [bind forallb]. now rewrite <- app_assoc, andb_assoc.
      * intros j. specialize (Hres (S j)). rewrite nearest_explicit_cons in Hres.
        rewrite Nat.add_succ_r in Hres. rewrite Nat.add_succ_l, <- Hres.
        destruct (nearest_explicit rest j); [reflexivity|].
        cbn [or_else]. fold (or_else (explicit_signature m) (n0, d0)). now rewrite Hsig.
    + cbn [bind ts_of].
      (* the string of the measure has two fields that [int] refuses *)
      destruct (m_time_signature m) as [|s|n d|b] eqn:Em; try discriminate Eu.
      unfold validate_measure. rewrite Em. cbn [effective_time_signature].
      simpl in Eu.
      destruct (List.length (PyStr.split slash s) =? 2)%nat; [|discriminate Eu].
      destruct (PyStr.py_int (nth 0 (PyStr.split slash s) EmptyString)) as [n|x];
        [|simpl in Eu |- *; now inversion Eu].
      destruct (PyStr.py_int (nth 1 (PyStr.split slash s) EmptyString)) as [d|x];
        [discriminate Eu|simpl in Eu |- *; now inversion Eu].
Qed.

Lemma loop_as_validate_each (sc : score) (n0 d0 : Z) :
  global_time_signature sc = Ok (TSDict n0 d0) ->
  validate_loop (TSDict n0 d0) [] true (s_measures sc)
  = (rs <- validate_each sc 0 (s_measures sc) ;;
     Ok (rs, forallb both_valid rs)).
Proof.
  intros Hg. rewrite (validate_loop_each sc (s_measures sc) 0 n0 d0 [] true).
  - destruct (validate_each sc 0 (s_measures sc)); reflexivity.
  - intros j. unfold resolved_signature. cbn [Nat.add].
    destruct (nearest_explicit (s_measures sc) j); [reflexivity|].
    cbn [or_else]. now rewrite (global_stated _ _ _ Hg).
Qed.

(** X14. Whole-score validation is measure-by-measure validation against the
    resolved signatures. For a score with measures whose global signature
    reads as a pair (or is absent): if validating each measure on its own
    against the signature the rule resolves for its index succeeds, then the
    report, if the global signature can be rendered by [str] (at most 4300
    digits in each number), holds exactly these results, in order, with
    [all_valid] their conjunction, and else the validation raises
    [ValueError] when it renders it; if one of the measures raises, the whole
    validation raises the same exception (that of the first measure that
    fails). *)
Theorem report_is_validation_of_each (sc : score) (n0 d0 : Z) :
  global_time_signature sc = Ok (TSDict n0 d0) ->
  s_measures sc <> [] ->
  (forall rs : list validation_result,
      validate_each sc 0 (s_measures sc) = Ok rs ->
      (renderable n0 -> renderable d0 ->
       exists a : aggregate,
         validate_all_measures sc = Ok (SuccessReport a)
         /\ measure_results a = rs
         /\ all_valid a = forallb both_valid rs)
      /\ (~ (renderable n0 /\ renderable d0) ->
          validate_all_measures sc = Raise ValueError))
  /\ (forall e : exn,
         validate_each sc 0 (s_measures sc) = Raise e ->
         validate_all_measures sc = Raise e).
Proof.
  intros Hg Hne. pose proof (loop_as_validate_each sc n0 d0 Hg) as Hloop.
  unfold validate_all_measures. rewrite Hg. cbn [bind].
  destruct (s_measures sc) as [|m rest] eqn:Hms; [contradiction|].
  rewrite Hloop. split.
  - intros rs Hrs. rewrite Hrs. cbn [bind ts_fields]. split.
    + intros Rn Rd. rewrite (render_ts_renderable n0 d0 Rn Rd). cbn [bind].
      eexists. split; [reflexivity|]. split; reflexivity.
    + intros Hnot. rewrite (render_ts_not_renderable n0 d0 Hnot). reflexivity.
  - intros e He. rewrite He. reflexivity.
Qed.

Lemma report_is_validation_of_each_witness :
  exists (rs : list validation_result) (a : aggregate),
    validate_each changing_piece 0 (s_measures changing_piece) = Ok rs
    /\ validate_all_measures changing_piece = Ok (SuccessReport a)
    /\ measure_results a = rs.
Proof.
  destruct (report_is_validation_of_each changing_piece 4 4 eq_refl) as [Hok _];
    [discriminate|].
  eexists.
  destruct (Hok _ ltac:(vm_compute; reflexivity)) as [Hrep _].
  destruct Hrep as (a & Ha & Hr & _);
    try (apply Nat.leb_le; vm_compute; reflexivity).
  exists a. split; [vm_compute; reflexivity|split; assumption].
Defined.

(** ** Prefixes of a score *)

Lemma validate_loop_app (ms1 ms2 : list measure) :
  forall (cur : ts_value) (res : list validation_result) (ok : bool)
         (res' : list validation_result) (ok' : bool),
    validate_loop cur res ok (ms1 ++ ms2)%list = Ok (res', ok') ->
    exists (cur1 : ts_value) (res1 : list validation_result) (ok1 : bool),
      validate_loop cur res ok ms1 = Ok (res1, ok1)
      /\ validate_loop cur1 res1 ok1 ms2 = Ok (res', ok').
Proof.
  induction ms1 as [|m rest IH]; intros cur res ok res' ok' H.
  - exists cur, res, ok. split; [reflexivity|exact H].
  - cbn [app validate_loop] in H |- *.
    destruct (update_current cur (m_time_signature m)) as [cur'|e]; [|discriminate].
    cbn [bind] in H |- *.
    destruct (validate_measure m cur') as [r|e]; [|discriminate].
    cbn [bind] in H |- *. now apply IH.
Qed.

(** X15. The results of the first measures do not depend on the measures that
    follow: when a score validates, so does the score cut after any of its
    measures, and its results are the first results of the whole. *)
Theorem prefix_of_score_validates
  (g : option ts_value) (ms1 ms2 : list measure) (a : aggregate) :
  ms1 <> [] ->
  validate_all_measures (mkScore g (ms1 ++ ms2)%list) = Ok (SuccessReport a) ->
  exists a1 : aggregate,
    validate_all_measures (mkScore g ms1) = Ok (SuccessReport a1)
    /\ measure_results a1 = firstn (List.length ms1) (measure_results a)
    /\ agg_time_signature a1 = agg_time_signature a.
Proof.
  intros Hne H. apply validate_all_inv in H
    as (n0 & d0 & results & all_ok & Hg & _ & Hloop & Ht & _ & _ & _ & _ & Hr & _).
  cbn [s_measures] in Hloop.
  apply validate_loop_app in Hloop as (cur1 & res1 & ok1 & H1 & H2).
  pose proof (validate_loop_results _ _ _ _ _ _ H1) as (new1 & Hres1 & Hall1 & _).
  pose proof (validate_loop_results _ _ _ _ _ _ H2) as (new2 & Hres2 & _ & _).
  simpl in Hres1. subst res1.
  unfold validate_all_measures.
  change (global_time_signature (mkScore g ms1))
    with (global_time_signature (mkScore g (ms1 ++ ms2)%list)).
  rewrite Hg. cbn [bind s_measures].
  destruct ms1 as [|m rest]; [contradiction|].
  rewrite H1. cbn [bind ts_fields]. rewrite Ht. cbn [bind].
  eexists. split; [reflexivity|]. cbn [measure_results agg_time_signature].
  split; [|reflexivity].
  rewrite Hr, Hres2. apply Forall2_length in Hall1. rewrite Hall1.
  now rewrite firstn_app, Nat.sub_diag, firstn_all, firstn_O, app_nil_r.
Qed.

Lemma prefix_of_score_validates_witness :
  exists a1 : aggregate,
    validate_all_measures (mkScore (Some (TSDict 4 4)) (firstn 2 (s_measures changing_piece)))
    = Ok (SuccessReport a1)
    /\ List.length (measure_results a1) = 2%nat.
Proof.
  destruct (prefix_of_score_validates (Some (TSDict 4 4))
              (firstn 2 (s_measures changing_piece))
              (skipn 2 (s_measures changing_piece)))
    with (a := match validate_all_measures changing_piece with
               | Ok (SuccessReport a) => a
               | _ => mkAggregate "" 0 0 0 true []
                        (mkSummary 0 0 (Finite (0 # 1)) (Finite (0 # 1)))
               end)
    as (a1 & H1 & Hr & _).
  - discriminate.
  - vm_compute. reflexivity.
  - exists a1. split; [exact H1|]. rewrite Hr. vm_compute. reflexivity.
Defined.

(** ** Signatures that cannot be used *)

Lemma validate_each_nth (sc : score) (ms : list measure) :
  forall (i : nat) (rs : list validation_result),
    validate_each sc i ms = Ok rs ->
    forall (j : nat) (m : measure),
      nth_error ms j = Some m ->
      exists r, validate_measure m (ts_of (resolved_signature sc (i + j))) = Ok r.
Proof.
  induction ms as [|m0 rest IH]; intros i rs H j m Hj.
  - destruct j; discriminate Hj.
  - cbn [validate_each] in H. invert_bind H. invert_bind H.
    destruct j as [|j].
    + simpl in Hj. inversion Hj; subst. rewrite Nat.add_0_r. now exists a.
    + simpl in Hj. rewrite Nat.add_succ_r, <- Nat.add_succ_l. now apply (IH _ _ E0).
Qed.

Lemma validate_measure_nonzero (m : measure) (n d : Z) (r : validation_result) :
  validate_measure m (TSDict n d) = Ok r ->
  snd (or_else (explicit_signature m) (n, d)) <> 0.
Proof.
  intros H. apply validate_measure_inv in H
    as (n' & d' & f & rh & lh & Hts & Hf & _).
  apply effective_stated in Hts. fold (explicit_signature m) in Hts.
  destruct (or_else (explicit_signature m) (n, d)) as [n1 d1].
  inversion Hts; subst. simpl. exact (Fraction_ok_nonzero _ _ _ Hf).
Qed.

Lemma resolved_is_own (sc : score) (i : nat) (m : measure) :
  nth_error (s_measures sc) i = Some m ->
  or_else (explicit_signature m) (resolved_signature sc i) = resolved_signature sc i.
Proof.
  intros H. unfold resolved_signature.
  destruct i; cbn [nearest_explicit]; rewrite H;
    now destruct (explicit_signature m).
Qed.

(** X16. A report is never produced for a score in which the signature
    resolved for some measure has denominator 0: in every report, the
    denominator resolved for every measure is not 0. *)
Theorem report_has_no_zero_denominator (sc : score) (a : aggregate) :
  validate_all_measures sc = Ok (SuccessReport a) ->
  forall i : nat,
    (i < List.length (s_measures sc))%nat ->
    snd (resolved_signature sc i) <> 0.
Proof.
  intros H i Hi. apply validate_all_inv in H
    as (n0 & d0 & results & all_ok & Hg & _ & Hloop & _).
  rewrite (loop_as_validate_each sc n0 d0 Hg) in Hloop.
  invert_bind Hloop.
  destruct (nth_error (s_measures sc) i) as [m|] eqn:Hm.
  - destruct (validate_each_nth _ _ _ _ E i m Hm) as (r & Hr).
    cbn [Nat.add] in Hr.
    destruct (resolved_signature sc i) as [n d] eqn:Hres.
    apply validate_measure_nonzero in Hr.
    rewrite <- Hres, (resolved_is_own sc i m Hm), Hres in Hr. exact Hr.
  - apply nth_error_None in Hm. lia.
Qed.

Lemma changing_piece_validates :
  exists a : aggregate, validate_all_measures changing_piece = Ok (SuccessReport a).
Proof. eexists. vm_compute. reflexivity. Defined.

Lemma report_has_no_zero_denominator_witness :
  snd (resolved_signature changing_piece 2) <> 0.
Proof.
  destruct changing_piece_validates as (a & Ha).
  apply (report_has_no_zero_denominator changing_piece a Ha). simpl. lia.
Defined.

(** ** Rendering and reading integers *)

Module IntFacts.

Import PyStr.

Ltac each_digit d tac :=
  destruct d as [|d|d|d|d|d|d|d|d|d|d]; tac.

Lemma scan_digits_uint (d : Decimal.uint) :
  scan_digits true (NilEmpty.string_of_uint d) = Some (uint_digits d).
Proof.
  induction d; [reflexivity|..];
    cbn [NilEmpty.string_of_uint scan_digits uint_digits];
    (match goal with
     | |- context [digit_value ?c] =>
         let v := eval vm_compute in (digit_value c) in
         change (digit_value c) with v
     end);
    cbv iota; rewrite IHd; reflexivity.
Qed.

Lemma scan_digits_uint_start (d : Decimal.uint) :
  d <> Decimal.Nil ->
  scan_digits false (NilEmpty.string_of_uint d) = Some (uint_digits d).
Proof.
  intros Hd. destruct d; [contradiction|..];
    cbn [NilEmpty.string_of_uint scan_digits uint_digits];
    (match goal with
     | |- context [digit_value ?c] =>
         let v := eval vm_compute in (digit_value c) in
         change (digit_value c) with v
     end);
    cbv iota; rewrite scan_digits_uint; reflexivity.
Qed.

Lemma fold_digits_acc (d : Decimal.uint) :
  forall acc : positive,
    fold_left (fun acc d => 10 * acc + d) (uint_digits d) (Z.pos acc)
    = Z.pos (Pos.of_uint_acc d acc).
Proof.
  induction d; intros acc; [reflexivity|..];
    cbn [uint_digits fold_left Pos.of_uint_acc];
    rewrite <- IHd; f_equal; lia.
Qed.

Lemma digits_value_uint (d : Decimal.uint) :
  digits_value (uint_digits d) = Z.of_uint d.
Proof.
  unfold digits_value, Z.of_uint.
  induction d; [reflexivity|..];
    cbn [uint_digits fold_left Pos.of_uint];
    try (change (10 * 0 + 0) with 0; exact IHd);
    match goal with
    | |- fold_left _ _ ?z = _ =>
        let v := eval vm_compute in z in change z with v
    end;
    rewrite fold_digits_acc; reflexivity.
Qed.

Lemma uint_digits_length (d : Decimal.uint) :
  List.length (uint_digits d) = String.length (NilEmpty.string_of_uint d).
Proof. induction d; simpl; congruence. Qed.

Lemma rstrip_uint (d : Decimal.uint) :
  rstrip_by is_int_space (NilEmpty.string_of_uint d) = NilEmpty.string_of_uint d.
Proof.
  induction d; [reflexivity|..];
    cbn [NilEmpty.string_of_uint rstrip_by]; rewrite IHd; reflexivity.
Qed.

Lemma lstrip_uint (d : Decimal.uint) :
  lstrip_by is_int_space (NilEmpty.string_of_uint d) = NilEmpty.string_of_uint d.
Proof. destruct d; reflexivity. Qed.

Lemma contains_slash_uint (d : Decimal.uint) :
  contains slash (NilEmpty.string_of_uint d) = false.
Proof. induction d; [reflexivity|..]; cbn [NilEmpty.string_of_uint contains]; exact IHd. Qed.

Lemma int_body_uint (d : Decimal.uint) :
  d <> Decimal.Nil ->
  (String.length (NilEmpty.string_of_uint d) <= max_str_digits)%nat ->
  int_body (NilEmpty.string_of_uint d) = Ok (Z.of_uint d).
Proof.
  intros Hd Hlen. unfold int_body.
  rewrite (scan_digits_uint_start d Hd), uint_digits_length.
  destruct (max_str_digits <? String.length (NilEmpty.string_of_uint d))%nat eqn:E.
  - apply Nat.ltb_lt in E. lia.
  - now rewrite digits_value_uint.
Qed.

Lemma py_int_uint (d : Decimal.uint) :
  d <> Decimal.Nil ->
  (String.length (NilEmpty.string_of_uint d) <= max_str_digits)%nat ->
  py_int (NilEmpty.string_of_uint d) = Ok (Z.of_uint d).
Proof.
  intros Hd Hlen. unfold py_int. rewrite lstrip_uint, rstrip_uint.
  rewrite <- (int_body_uint d Hd Hlen).
  destruct d; [contradiction|..]; reflexivity.
Qed.

Lemma py_int_neg_uint (d : Decimal.uint) :
  d <> Decimal.Nil ->
  (String.length (NilEmpty.string_of_uint d) <= max_str_digits)%nat ->
  py_int (String "-"%char (NilEmpty.string_of_uint d)) = Ok (- Z.of_uint d).
Proof.
  intros Hd Hlen. unfold py_int.
  change (lstrip_by is_int_space (String "-"%char (NilEmpty.string_of_uint d)))
    with (String "-"%char (NilEmpty.string_of_uint d)).
  cbn [rstrip_by]. rewrite rstrip_uint.
  change (is_int_space "-"%char) with false. cbn [andb].
  cbv iota beta. rewrite (int_body_uint d Hd Hlen). reflexivity.
Qed.

(** The number of decimal digits that [str(n)] writes. *)
Lemma str_of_int_cases (z : Z) :
  (z = 0 /\ str_of_int z = "0")
  \/ (exists p, z = Z.pos p
                /\ str_of_int z = NilEmpty.string_of_uint (Pos.to_uint p))
  \/ (exists p, z = Z.neg p
                /\ str_of_int z = String "-"%char (NilEmpty.string_of_uint (Pos.to_uint p))).
Proof.
  destruct z as [|p|p].
  - left. split; reflexivity.
  - right. left. exists p. split; [reflexivity|].
    unfold str_of_int, Z.to_int, NilZero.string_of_int, NilZero.string_of_uint.
    pose proof (Unsigned.to_uint_nonnil p).
    now destruct (Pos.to_uint p).
  - right. right. exists p. split; [reflexivity|].
    unfold str_of_int, Z.to_int, NilZero.string_of_int, NilZero.string_of_uint.
    pose proof (Unsigned.to_uint_nonnil p).
    now destruct (Pos.to_uint p).
Qed.

Lemma of_uint_to_uint (p : positive) : Z.of_uint (Pos.to_uint p) = Z.pos p.
Proof. unfold Z.of_uint. now rewrite Unsigned.of_to. Qed.

Lemma str_of_int_pos (p : positive) :
  str_of_int (Z.pos p) = NilEmpty.string_of_uint (Pos.to_uint p).
Proof.
  destruct (str_of_int_cases (Z.pos p)) as [(H & _)|[(q & Hq & Hs)|(q & Hq & _)]];
    try discriminate.
  inversion Hq; subst q. exact Hs.
Qed.

Lemma str_of_int_neg (p : positive) :
  str_of_int (Z.neg p) = String "-"%char (NilEmpty.string_of_uint (Pos.to_uint p)).
Proof.
  destruct (str_of_int_cases (Z.neg p)) as [(H & _)|[(q & Hq & _)|(q & Hq & Hs)]];
    try discriminate.
  inversion Hq; subst q. exact Hs.
Qed.

Lemma py_int_str_of_int (z : Z) :
  (decimal_digits z <= max_str_digits)%nat ->
  py_int (str_of_int z) = Ok z.
Proof.
  unfold decimal_digits. destruct z as [|p|p]; [reflexivity|..];
    change (Z.abs (Z.pos p)) with (Z.pos p);
    change (Z.abs (Z.neg p)) with (Z.pos p);
    rewrite str_of_int_pos; intros Hlen.
  - rewrite py_int_uint;
      [now rewrite of_uint_to_uint|apply Unsigned.to_uint_nonnil|exact Hlen].
  - rewrite str_of_int_neg, py_int_neg_uint;
      [now rewrite of_uint_to_uint|apply Unsigned.to_uint_nonnil|exact Hlen].
Qed.

Lemma length_bounds_digits (z : Z) :
  (decimal_digits z <= String.length (str_of_int z))%nat.
Proof.
  unfold decimal_digits. destruct z as [|p|p]; [simpl; lia|..];
    change (Z.abs (Z.pos p)) with (Z.pos p);
    change (Z.abs (Z.neg p)) with (Z.pos p).
  - lia.
  - rewrite str_of_int_pos, str_of_int_neg. cbn [String.length]. lia.
Qed.

Lemma contains_slash_str_of_int (z : Z) : contains slash (str_of_int z) = false.
Proof.
  destruct (str_of_int_cases z) as [(_ & ->)|[(p & _ & ->)|(p & _ & ->)]].
  - reflexivity.
  - apply contains_slash_uint.
  - cbn [contains]. apply contains_slash_uint.
Qed.

End IntFacts.

Lemma render_ts_inv (n d : Z) (s : string) :
  render_ts n d = Ok s -> renderable n /\ renderable d /\ s = ts_text n d.
Proof.
  unfold render_ts, PyStr.py_str, renderable.
  destruct (PyStr.max_str_digits <? PyStr.decimal_digits n)%nat eqn:En; [discriminate|].
  destruct (PyStr.max_str_digits <? PyStr.decimal_digits d)%nat eqn:Ed; [discriminate|].
  apply Nat.ltb_ge in En, Ed. simpl. intros H. inversion H. repeat split; assumption.
Qed.

Lemma parse_signature_text (n d : Z) :
  renderable n -> renderable d -> parse_signature (ts_text n d) = Some (n, d).
Proof.
  intros Hn Hd. unfold parse_signature, ts_text.
  change (PyStr.str_of_int n ++ "/" ++ PyStr.str_of_int d)
    with (PyStr.str_of_int n ++ String slash (PyStr.str_of_int d)).
  rewrite ConcatFacts.split_app by apply IntFacts.contains_slash_str_of_int.
  rewrite ConcatFacts.split_free by apply IntFacts.contains_slash_str_of_int.
  cbn [List.length Nat.eqb nth].
  now rewrite (IntFacts.py_int_str_of_int n Hn), (IntFacts.py_int_str_of_int d Hd).
Qed.

(** X17. Reading back what is rendered. [int(str(n))] is [n] for every
    integer that [str] renders. The "N/D" string that the f-string renders for
    a signature reads back (split on the slash, [int] of both fields) as that
    signature; numbers written with at most 4300 characters are rendered. So
    the [time_signature] of every result of [validate_measure], given back as
    the signature string of a measure, states the signature the measure was
    validated against. *)
Theorem rendered_signature_reads_back :
  (forall n : Z, renderable n -> PyStr.py_int (PyStr.str_of_int n) = Ok n)
  /\ (forall (n d : Z) (s : string),
         render_ts n d = Ok s ->
         parse_signature s = Some (n, d)
         /\ stated_signature (TSStr s) = stated_signature (TSDict n d))
  /\ (forall n d : Z,
         (String.length (PyStr.str_of_int n) <= PyStr.max_str_digits)%nat ->
         (String.length (PyStr.str_of_int d) <= PyStr.max_str_digits)%nat ->
         exists s : string, render_ts n d = Ok s)
  /\ (forall (m : measure) (ts : ts_value) (r : validation_result),
         validate_measure m ts = Ok r ->
         exists n d : Z,
           effective_time_signature (m_time_signature m) ts = Ok (TSDict n d)
           /\ stated_signature (TSStr (time_signature r)) = Some (n, d)).
Proof.
  split; [exact IntFacts.py_int_str_of_int|].
  assert (Hback : forall n d s, render_ts n d = Ok s -> parse_signature s = Some (n, d)).
  { intros n d s H. apply render_ts_inv in H as (Hn & Hd & ->).
    now apply parse_signature_text. }
  split; [|split].
  - intros n d s H. split; simpl; now apply Hback.
  - intros n d Hn Hd. exists (ts_text n d). apply render_ts_renderable.
    + unfold renderable. pose proof (IntFacts.length_bounds_digits n). lia.
    + unfold renderable. pose proof (IntFacts.length_bounds_digits d). lia.
  - intros m ts r H. apply validate_measure_inv in H
      as (n & d & f & rh & lh & Hts & _ & _ & _ & Ht & _).
    exists n, d. split; [exact Hts|]. simpl. now apply Hback.
Qed.

Lemma rendered_signature_reads_back_witness :
  PyStr.py_int (PyStr.str_of_int (-3)) = Ok (-3)
  /\ parse_signature "6/8" = Some (6, 8)
  /\ (exists s : string, render_ts (-3) 4 = Ok s).
Proof.
  destruct rendered_signature_reads_back as (Hint & Hback & Hrender & _).
  split; [|split].
  - apply Hint. apply Nat.leb_le. vm_compute. reflexivity.
  - apply (Hback 6 8 "6/8"). vm_compute. reflexivity.
  - apply Hrender; apply Nat.leb_le; vm_compute; reflexivity.
Defined.

(** ** A global signature that is no signature *)

(** X18. A score whose ["time_signature"] is present but is neither a string
    nor a pair (null, a number, a list) never gets a report: without measures
    it gets the error result, and with measures the validation raises, at the
    latest with [TypeError] when the report is put together after every
    measure has been validated. *)
Theorem unusable_global_signature (sc : score) (v : ts_value) :
  s_time_signature sc = Some v ->
  stated_signature v = None ->
  (forall s : string, v <> TSStr s) ->
  (forall a : aggregate, validate_all_measures sc <> Ok (SuccessReport a))
  /\ (s_measures sc = [] ->
      validate_all_measures sc = Ok (ErrorReport no_measures_message))
  /\ (s_measures sc <> [] ->
      exists e : exn, validate_all_measures sc = Raise e)
  /\ (forall out, s_measures sc <> [] ->
        validate_loop v [] true (s_measures sc) = Ok out ->
        validate_all_measures sc = Raise TypeError).
Proof.
  intros Hv Hnone Hstr.
  assert (Hg : global_time_signature sc = Ok v).
  { unfold global_time_signature. rewrite Hv.
    destruct v as [|s|n d|b]; try reflexivity. now destruct (Hstr s). }
  assert (Hf : ts_fields v = Raise TypeError).
  { destruct v as [|s|n d|b]; try reflexivity. discriminate Hnone. }
  unfold validate_all_measures. rewrite Hg. cbn [bind].
  destruct (s_measures sc) as [|m rest].
  - repeat split; try discriminate; try contradiction.
  - destruct (validate_loop v [] true (m :: rest)) as [[results all_ok]|e].
    + cbn [bind]. rewrite Hf. repeat split; try discriminate.
      * intros _. now exists TypeError.
    + cbn [bind]. repeat split; try discriminate.
      intros _. now exists e.
Qed.

Lemma unusable_global_signature_witness :
  validate_all_measures
    (mkScore (Some TSNone)
       [mkMeasure None (TSDict 4 4) four_quarters four_quarters])
  = Raise TypeError.
Proof.
  destruct (unusable_global_signature
              (mkScore (Some TSNone)
                 [mkMeasure None (TSDict 4 4) four_quarters four_quarters])
              TSNone eq_refl eq_refl) as (_ & _ & _ & H).
  - discriminate.
  - eapply H; [discriminate|]. vm_compute. reflexivity.
Defined.

(** ** Voices put together *)

(** X19. The duration of two voices played one after the other is the sum of
    their durations. *)
Theorem voice_durations_add
  (l1 l2 : list event) (ts : ts_value) (lh : bool) (T1 T2 : Q) :
  calculate_measure_duration_events l1 ts lh = Ok T1 ->
  calculate_measure_duration_events l2 ts lh = Ok T2 ->
  calculate_measure_duration_events (l1 ++ l2)%list ts lh = Ok (frac_add T1 T2).
Proof.
  rewrite !calculate_as_sum, parse_all_app. intros H1 H2.
  invert_bind H1. invert_bind H2. rewrite E, E0. cbn [bind].
  inversion H1; inversion H2; subst. f_equal. unfold frac_add.
  apply Qred_complete. rewrite sum_list_app, !Qred_correct. reflexivity.
Qed.

Lemma voice_durations_add_witness :
  calculate_measure_duration_events (four_quarters ++ three_quarters)%list TSNone false
  = Ok (frac_add (4 # 1) (3 # 1))%Q.
Proof. apply voice_durations_add; reflexivity. Defined.

(** ** Through the agent tool *)

(** X21. Through the agent tool a score without measures always comes back
    with status ["error"] (the error result of the validator, or the caught
    exception of a global signature that cannot be read), and the status is
    ["success"] exactly when the validator returns a report. *)
Theorem tool_reports_empty_score_as_error (sc : score) :
  (s_measures sc = [] -> tool_status (tool_validate_all_measures sc) = "error")
  /\ (tool_status (tool_validate_all_measures sc) = "success"
      <-> exists a : aggregate, validate_all_measures sc = Ok (SuccessReport a)).
Proof.
  unfold tool_validate_all_measures. split.
  - intros Hms. unfold validate_all_measures. rewrite Hms.
    destruct (global_time_signature sc); reflexivity.
  - destruct (validate_all_measures sc) as [[msg|a]|e]; cbn [tool_status]; split;
      try discriminate; try (intros (a' & Ha); discriminate Ha).
    + intros _. now exists a.
    + reflexivity.
Qed.

Lemma tool_reports_empty_score_as_error_witness :
  tool_status (tool_validate_all_measures (mkScore (Some (TSStr "x/y")) [])) = "error".
Proof.
  apply (proj1 (tool_reports_empty_score_as_error (mkScore (Some (TSStr "x/y")) []))).
  reflexivity.
Defined.
